(** * A shallow embedding of the writer of astrohelm/shared-stream

    The embedded source is the second class of [src/lib/utils/writer.js]
    (its lines 145-411): the [Writable] class, the [Write] engine and the
    [FakeWrite] stub.

    Modelling choices:
    - the writer runs in one JavaScript context.  A method is a computation
      in the monad [M]: it reads the configuration and the reader (an
      environment), threads the writer state, appends observations (emitted
      events, frames published to the ring, blocking waits) and ends in a
      value, a thrown exception, or [OutOfFuel] when its fuel runs out;
      on a throw the state reached so far is kept, as JavaScript keeps
      mutations made before the throw;
    - the reader is a concurrent process: each access to one of its words
      (Atomics.load, Atomics.wait, Atomics.waitAsync on READ_INDEX,
      READ_CYCLE or READ_PROCESS) reads the oracle at the writer's
      [clock] and advances the clock;
    - a payload is a JavaScript string of one-byte characters, written as
      the list of its byte codes, so that [slice] indices and
      [Buffer.byteLength] agree; [undefined] (what [shift] returns on an
      empty array) is [None];
    - pending promise continuations are counters in the state; the event
      loop running one of them is a separate step of [session_step];
    - the application has an 'error' listener and its listeners do not
      call back into the writer. *)

From Stdlib Require Import ZArith List Bool Lia.
Import ListNotations.
Open Scope Z_scope.

Module SharedStream.

(** ** Configuration and shared words *)

(** Modelled from the spec: the lifecycle signs of [./config] (not under
    src/): EMPTY, READY, FINISHING, FINISHED and FAILED, pairwise distinct. *)
Inductive sign := EMPTY_SIGN | READY_SIGN | FINISHING_SIGN | FINISHED_SIGN | FAILED_SIGN.

Definition sign_eqb (a b : sign) : bool :=
  match a, b with
  | EMPTY_SIGN, EMPTY_SIGN | READY_SIGN, READY_SIGN | FINISHING_SIGN, FINISHING_SIGN
  | FINISHED_SIGN, FINISHED_SIGN | FAILED_SIGN, FAILED_SIGN => true
  | _, _ => false
  end.

(** Modelled from the spec: [PREFIX_SIZE] of [./config] is 4. *)
Definition PREFIX_SIZE : Z := 4.

Definition READ_SPINS : Z := 10.
Definition FINISH_SPINS : Z := 10.
Definition SPIN_TIMEOUT : Z := 1000.
Definition START_TIMEOUT : Z := 5000.

(** The words of [_sharedState] that the reader owns. *)
Record reader_words := mkReaderWords {
  READ_INDEX : Z;
  READ_CYCLE : Z;
  READ_PROCESS : sign
}.

(** The environment: [POSTFIX_SIZE] (a configured constant of [./config],
    modelled from the spec as any value), the reader's words at each clock
    tick, and whether a notify ends a blocking wait begun at that tick. *)
Record env := mkEnv {
  POSTFIX_SIZE : Z;
  reader : nat -> reader_words;
  notified : nat -> bool
}.

Definition EXTRA_SPACE (E : env) : Z := PREFIX_SIZE + POSTFIX_SIZE E.

(** The results of [Atomics.wait] and of a settled [Atomics.waitAsync]. *)
Inductive wait_result := WOk | WNotEqual | WTimedOut.

Definition wait_result_eqb (a b : wait_result) : bool :=
  match a, b with
  | WOk, WOk | WNotEqual, WNotEqual | WTimedOut, WTimedOut => true
  | _, _ => false
  end.

(** The errors the writer throws or hands to [destroy]: the two
    [new Error(...)] of [Write], the message constants, and the
    [RangeError]/[TypeError] raised by [Buffer] and by calling a missing
    method. *)
Inductive err :=
  | E_overwritten                (* 'overwritten' *)
  | E_read_further               (* 'Read further than expected' *)
  | TOO_LONG_READING
  | READER_EXIT_BEFORE_SYNC
  | READER_FAILED_TIMEOUT
  | READER_EXIT_AT_SYNC
  | FAILED_TO_FINISH_TIMEOUT
  | FAILED_TO_FINISH_READER
  | READER_EXIT_WHILE_WATCH
  | RangeError
  | TypeError.

Inductive event := EvReady | EvDrain | EvFinish | EvError (e : err) | EvClose.

Definition payload := list Z.

(** What the writer lets an observer see: emitted events, frames made
    visible by a store of WRITE_INDEX (the payload bytes and the NOT_FINAL
    byte), and the blocking [Atomics.wait] calls with their outcome. *)
Inductive obs :=
  | Emit (e : event)
  | Frame (data : payload) (not_final : Z)
  | BlockedIndex (expected : Z) (r : wait_result)
  | BlockedProcess (expected : sign) (r : wait_result).

(** The function [this.write] is bound to: [Write.bind(this, false)] or
    [FakeWrite]. *)
Inductive entry := Engine | Stub.

(** ** The writer state *)

Record writer := mkWriter {
  _sharedBuffer : list Z;  (* the bytes of the shared region B *)
  S_WRITE_INDEX : Z;  (* WRITE_INDEX word of _sharedState *)
  S_WRITE_CYCLE : Z;  (* WRITE_CYCLE word of _sharedState *)
  S_WRITE_PROCESS : sign;  (* WRITE_PROCESS word of _sharedState *)
  _extraBuffer : list (option payload);
  _process : sign;
  _cycle : Z;
  _write : Z;
  _ready : bool;
  _ended : bool;
  _closed : bool;
  _ending : bool;
  _errored : option err;
  _destroyed : bool;
  _flashing : bool;
  _finished : bool;
  _needDrain : bool;
  _watching : bool;
  write_entry : entry;  (* the function this.write is bound to *)
  drain_waiters : nat;  (* pending value.then(() => this._drain()) *)
  watch_waiters : nat;  (* pending value.then(() => this._watch()) *)
  sync_waiter : bool;  (* pending result.value.then(...) of synchronize *)
  drain_listeners : nat;  (* this.once('drain', () => this.end()) listeners *)
  clock : nat  (* accesses to the reader's words so far *)
}.

Definition set_sharedBuffer (v : list Z) (s : writer) : writer :=
  {| _sharedBuffer := v; S_WRITE_INDEX := S_WRITE_INDEX s; S_WRITE_CYCLE := S_WRITE_CYCLE s;
     S_WRITE_PROCESS := S_WRITE_PROCESS s; _extraBuffer := _extraBuffer s;
     _process := _process s; _cycle := _cycle s; _write := _write s; _ready := _ready s;
     _ended := _ended s; _closed := _closed s; _ending := _ending s; _errored := _errored s;
     _destroyed := _destroyed s; _flashing := _flashing s; _finished := _finished s;
     _needDrain := _needDrain s; _watching := _watching s; write_entry := write_entry s;
     drain_waiters := drain_waiters s; watch_waiters := watch_waiters s;
     sync_waiter := sync_waiter s; drain_listeners := drain_listeners s; clock := clock s |}.
Definition set_S_WRITE_INDEX (v : Z) (s : writer) : writer :=
  {| _sharedBuffer := _sharedBuffer s; S_WRITE_INDEX := v; S_WRITE_CYCLE := S_WRITE_CYCLE s;
     S_WRITE_PROCESS := S_WRITE_PROCESS s; _extraBuffer := _extraBuffer s;
     _process := _process s; _cycle := _cycle s; _write := _write s; _ready := _ready s;
     _ended := _ended s; _closed := _closed s; _ending := _ending s; _errored := _errored s;
     _destroyed := _destroyed s; _flashing := _flashing s; _finished := _finished s;
     _needDrain := _needDrain s; _watching := _watching s; write_entry := write_entry s;
     drain_waiters := drain_waiters s; watch_waiters := watch_waiters s;
     sync_waiter := sync_waiter s; drain_listeners := drain_listeners s; clock := clock s |}.
Definition set_S_WRITE_CYCLE (v : Z) (s : writer) : writer :=
  {| _sharedBuffer := _sharedBuffer s; S_WRITE_INDEX := S_WRITE_INDEX s; S_WRITE_CYCLE := v;
     S_WRITE_PROCESS := S_WRITE_PROCESS s; _extraBuffer := _extraBuffer s;
     _process := _process s; _cycle := _cycle s; _write := _write s; _ready := _ready s;
     _ended := _ended s; _closed := _closed s; _ending := _ending s; _errored := _errored s;
     _destroyed := _destroyed s; _flashing := _flashing s; _finished := _finished s;
     _needDrain := _needDrain s; _watching := _watching s; write_entry := write_entry s;
     drain_waiters := drain_waiters s; watch_waiters := watch_waiters s;
     sync_waiter := sync_waiter s; drain_listeners := drain_listeners s; clock := clock s |}.
Definition set_S_WRITE_PROCESS (v : sign) (s : writer) : writer :=
  {| _sharedBuffer := _sharedBuffer s; S_WRITE_INDEX := S_WRITE_INDEX s;
     S_WRITE_CYCLE := S_WRITE_CYCLE s; S_WRITE_PROCESS := v; _extraBuffer := _extraBuffer s;
     _process := _process s; _cycle := _cycle s; _write := _write s; _ready := _ready s;
     _ended := _ended s; _closed := _closed s; _ending := _ending s; _errored := _errored s;
     _destroyed := _destroyed s; _flashing := _flashing s; _finished := _finished s;
     _needDrain := _needDrain s; _watching := _watching s; write_entry := write_entry s;
     drain_waiters := drain_waiters s; watch_waiters := watch_waiters s;
     sync_waiter := sync_waiter s; drain_listeners := drain_listeners s; clock := clock s |}.
Definition set_extraBuffer (v : list (option payload)) (s : writer) : writer :=
  {| _sharedBuffer := _sharedBuffer s; S_WRITE_INDEX := S_WRITE_INDEX s;
     S_WRITE_CYCLE := S_WRITE_CYCLE s; S_WRITE_PROCESS := S_WRITE_PROCESS s; _extraBuffer := v;
     _process := _process s; _cycle := _cycle s; _write := _write s; _ready := _ready s;
     _ended := _ended s; _closed := _closed s; _ending := _ending s; _errored := _errored s;
     _destroyed := _destroyed s; _flashing := _flashing s; _finished := _finished s;
     _needDrain := _needDrain s; _watching := _watching s; write_entry := write_entry s;
     drain_waiters := drain_waiters s; watch_waiters := watch_waiters s;
     sync_waiter := sync_waiter s; drain_listeners := drain_listeners s; clock := clock s |}.
Definition set_process (v : sign) (s : writer) : writer :=
  {| _sharedBuffer := _sharedBuffer s; S_WRITE_INDEX := S_WRITE_INDEX s;
     S_WRITE_CYCLE := S_WRITE_CYCLE s; S_WRITE_PROCESS := S_WRITE_PROCESS s;
     _extraBuffer := _extraBuffer s; _process := v; _cycle := _cycle s; _write := _write s;
     _ready := _ready s; _ended := _ended s; _closed := _closed s; _ending := _ending s;
     _errored := _errored s; _destroyed := _destroyed s; _flashing := _flashing s;
     _finished := _finished s; _needDrain := _needDrain s; _watching := _watching s;
     write_entry := write_entry s; drain_waiters := drain_waiters s;
     watch_waiters := watch_waiters s; sync_waiter := sync_waiter s;
     drain_listeners := drain_listeners s; clock := clock s |}.
Definition set_cycle (v : Z) (s : writer) : writer :=
  {| _sharedBuffer := _sharedBuffer s; S_WRITE_INDEX := S_WRITE_INDEX s;
     S_WRITE_CYCLE := S_WRITE_CYCLE s; S_WRITE_PROCESS := S_WRITE_PROCESS s;
     _extraBuffer := _extraBuffer s; _process := _process s; _cycle := v; _write := _write s;
     _ready := _ready s; _ended := _ended s; _closed := _closed s; _ending := _ending s;
     _errored := _errored s; _destroyed := _destroyed s; _flashing := _flashing s;
     _finished := _finished s; _needDrain := _needDrain s; _watching := _watching s;
     write_entry := write_entry s; drain_waiters := drain_waiters s;
     watch_waiters := watch_waiters s; sync_waiter := sync_waiter s;
     drain_listeners := drain_listeners s; clock := clock s |}.
Definition set_write (v : Z) (s : writer) : writer :=
  {| _sharedBuffer := _sharedBuffer s; S_WRITE_INDEX := S_WRITE_INDEX s;
     S_WRITE_CYCLE := S_WRITE_CYCLE s; S_WRITE_PROCESS := S_WRITE_PROCESS s;
     _extraBuffer := _extraBuffer s; _process := _process s; _cycle := _cycle s; _write := v;
     _ready := _ready s; _ended := _ended s; _closed := _closed s; _ending := _ending s;
     _errored := _errored s; _destroyed := _destroyed s; _flashing := _flashing s;
     _finished := _finished s; _needDrain := _needDrain s; _watching := _watching s;
     write_entry := write_entry s; drain_waiters := drain_waiters s;
     watch_waiters := watch_waiters s; sync_waiter := sync_waiter s;
     drain_listeners := drain_listeners s; clock := clock s |}.
Definition set_ready (v : bool) (s : writer) : writer :=
  {| _sharedBuffer := _sharedBuffer s; S_WRITE_INDEX := S_WRITE_INDEX s;
     S_WRITE_CYCLE := S_WRITE_CYCLE s; S_WRITE_PROCESS := S_WRITE_PROCESS s;
     _extraBuffer := _extraBuffer s; _process := _process s; _cycle := _cycle s;
     _write := _write s; _ready := v; _ended := _ended s; _closed := _closed s;
     _ending := _ending s; _errored := _errored s; _destroyed := _destroyed s;
     _flashing := _flashing s; _finished := _finished s; _needDrain := _needDrain s;
     _watching := _watching s; write_entry := write_entry s; drain_waiters := drain_waiters s;
     watch_waiters := watch_waiters s; sync_waiter := sync_waiter s;
     drain_listeners := drain_listeners s; clock := clock s |}.
Definition set_ended (v : bool) (s : writer) : writer :=
  {| _sharedBuffer := _sharedBuffer s; S_WRITE_INDEX := S_WRITE_INDEX s;
     S_WRITE_CYCLE := S_WRITE_CYCLE s; S_WRITE_PROCESS := S_WRITE_PROCESS s;
     _extraBuffer := _extraBuffer s; _process := _process s; _cycle := _cycle s;
     _write := _write s; _ready := _ready s; _ended := v; _closed := _closed s;
     _ending := _ending s; _errored := _errored s; _destroyed := _destroyed s;
     _flashing := _flashing s; _finished := _finished s; _needDrain := _needDrain s;
     _watching := _watching s; write_entry := write_entry s; drain_waiters := drain_waiters s;
     watch_waiters := watch_waiters s; sync_waiter := sync_waiter s;
     drain_listeners := drain_listeners s; clock := clock s |}.
Definition set_closed (v : bool) (s : writer) : writer :=
  {| _sharedBuffer := _sharedBuffer s; S_WRITE_INDEX := S_WRITE_INDEX s;
     S_WRITE_CYCLE := S_WRITE_CYCLE s; S_WRITE_PROCESS := S_WRITE_PROCESS s;
     _extraBuffer := _extraBuffer s; _process := _process s; _cycle := _cycle s;
     _write := _write s; _ready := _ready s; _ended := _ended s; _closed := v;
     _ending := _ending s; _errored := _errored s; _destroyed := _destroyed s;
     _flashing := _flashing s; _finished := _finished s; _needDrain := _needDrain s;
     _watching := _watching s; write_entry := write_entry s; drain_waiters := drain_waiters s;
     watch_waiters := watch_waiters s; sync_waiter := sync_waiter s;
     drain_listeners := drain_listeners s; clock := clock s |}.
Definition set_ending (v : bool) (s : writer) : writer :=
  {| _sharedBuffer := _sharedBuffer s; S_WRITE_INDEX := S_WRITE_INDEX s;
     S_WRITE_CYCLE := S_WRITE_CYCLE s; S_WRITE_PROCESS := S_WRITE_PROCESS s;
     _extraBuffer := _extraBuffer s; _process := _process s; _cycle := _cycle s;
     _write := _write s; _ready := _ready s; _ended := _ended s; _closed := _closed s;
     _ending := v; _errored := _errored s; _destroyed := _destroyed s;
     _flashing := _flashing s; _finished := _finished s; _needDrain := _needDrain s;
     _watching := _watching s; write_entry := write_entry s; drain_waiters := drain_waiters s;
     watch_waiters := watch_waiters s; sync_waiter := sync_waiter s;
     drain_listeners := drain_listeners s; clock := clock s |}.
Definition set_errored (v : option err) (s : writer) : writer :=
  {| _sharedBuffer := _sharedBuffer s; S_WRITE_INDEX := S_WRITE_INDEX s;
     S_WRITE_CYCLE := S_WRITE_CYCLE s; S_WRITE_PROCESS := S_WRITE_PROCESS s;
     _extraBuffer := _extraBuffer s; _process := _process s; _cycle := _cycle s;
     _write := _write s; _ready := _ready s; _ended := _ended s; _closed := _closed s;
     _ending := _ending s; _errored := v; _destroyed := _destroyed s; _flashing := _flashing s;
     _finished := _finished s; _needDrain := _needDrain s; _watching := _watching s;
     write_entry := write_entry s; drain_waiters := drain_waiters s;
     watch_waiters := watch_waiters s; sync_waiter := sync_waiter s;
     drain_listeners := drain_listeners s; clock := clock s |}.
Definition set_destroyed (v : bool) (s : writer) : writer :=
  {| _sharedBuffer := _sharedBuffer s; S_WRITE_INDEX := S_WRITE_INDEX s;
     S_WRITE_CYCLE := S_WRITE_CYCLE s; S_WRITE_PROCESS := S_WRITE_PROCESS s;
     _extraBuffer := _extraBuffer s; _process := _process s; _cycle := _cycle s;
     _write := _write s; _ready := _ready s; _ended := _ended s; _closed := _closed s;
     _ending := _ending s; _errored := _errored s; _destroyed := v; _flashing := _flashing s;
     _finished := _finished s; _needDrain := _needDrain s; _watching := _watching s;
     write_entry := write_entry s; drain_waiters := drain_waiters s;
     watch_waiters := watch_waiters s; sync_waiter := sync_waiter s;
     drain_listeners := drain_listeners s; clock := clock s |}.
Definition set_flashing (v : bool) (s : writer) : writer :=
  {| _sharedBuffer := _sharedBuffer s; S_WRITE_INDEX := S_WRITE_INDEX s;
     S_WRITE_CYCLE := S_WRITE_CYCLE s; S_WRITE_PROCESS := S_WRITE_PROCESS s;
     _extraBuffer := _extraBuffer s; _process := _process s; _cycle := _cycle s;
     _write := _write s; _ready := _ready s; _ended := _ended s; _closed := _closed s;
     _ending := _ending s; _errored := _errored s; _destroyed := _destroyed s; _flashing := v;
     _finished := _finished s; _needDrain := _needDrain s; _watching := _watching s;
     write_entry := write_entry s; drain_waiters := drain_waiters s;
     watch_waiters := watch_waiters s; sync_waiter := sync_waiter s;
     drain_listeners := drain_listeners s; clock := clock s |}.
Definition set_finished (v : bool) (s : writer) : writer :=
  {| _sharedBuffer := _sharedBuffer s; S_WRITE_INDEX := S_WRITE_INDEX s;
     S_WRITE_CYCLE := S_WRITE_CYCLE s; S_WRITE_PROCESS := S_WRITE_PROCESS s;
     _extraBuffer := _extraBuffer s; _process := _process s; _cycle := _cycle s;
     _write := _write s; _ready := _ready s; _ended := _ended s; _closed := _closed s;
     _ending := _ending s; _errored := _errored s; _destroyed := _destroyed s;
     _flashing := _flashing s; _finished := v; _needDrain := _needDrain s;
     _watching := _watching s; write_entry := write_entry s; drain_waiters := drain_waiters s;
     watch_waiters := watch_waiters s; sync_waiter := sync_waiter s;
     drain_listeners := drain_listeners s; clock := clock s |}.
Definition set_needDrain (v : bool) (s : writer) : writer :=
  {| _sharedBuffer := _sharedBuffer s; S_WRITE_INDEX := S_WRITE_INDEX s;
     S_WRITE_CYCLE := S_WRITE_CYCLE s; S_WRITE_PROCESS := S_WRITE_PROCESS s;
     _extraBuffer := _extraBuffer s; _process := _process s; _cycle := _cycle s;
     _write := _write s; _ready := _ready s; _ended := _ended s; _closed := _closed s;
     _ending := _ending s; _errored := _errored s; _destroyed := _destroyed s;
     _flashing := _flashing s; _finished := _finished s; _needDrain := v;
     _watching := _watching s; write_entry := write_entry s; drain_waiters := drain_waiters s;
     watch_waiters := watch_waiters s; sync_waiter := sync_waiter s;
     drain_listeners := drain_listeners s; clock := clock s |}.
Definition set_watching (v : bool) (s : writer) : writer :=
  {| _sharedBuffer := _sharedBuffer s; S_WRITE_INDEX := S_WRITE_INDEX s;
     S_WRITE_CYCLE := S_WRITE_CYCLE s; S_WRITE_PROCESS := S_WRITE_PROCESS s;
     _extraBuffer := _extraBuffer s; _process := _process s; _cycle := _cycle s;
     _write := _write s; _ready := _ready s; _ended := _ended s; _closed := _closed s;
     _ending := _ending s; _errored := _errored s; _destroyed := _destroyed s;
     _flashing := _flashing s; _finished := _finished s; _needDrain := _needDrain s;
     _watching := v; write_entry := write_entry s; drain_waiters := drain_waiters s;
     watch_waiters := watch_waiters s; sync_waiter := sync_waiter s;
     drain_listeners := drain_listeners s; clock := clock s |}.
Definition set_write_entry (v : entry) (s : writer) : writer :=
  {| _sharedBuffer := _sharedBuffer s; S_WRITE_INDEX := S_WRITE_INDEX s;
     S_WRITE_CYCLE := S_WRITE_CYCLE s; S_WRITE_PROCESS := S_WRITE_PROCESS s;
     _extraBuffer := _extraBuffer s; _process := _process s; _cycle := _cycle s;
     _write := _write s; _ready := _ready s; _ended := _ended s; _closed := _closed s;
     _ending := _ending s; _errored := _errored s; _destroyed := _destroyed s;
     _flashing := _flashing s; _finished := _finished s; _needDrain := _needDrain s;
     _watching := _watching s; write_entry := v; drain_waiters := drain_waiters s;
     watch_waiters := watch_waiters s; sync_waiter := sync_waiter s;
     drain_listeners := drain_listeners s; clock := clock s |}.
Definition set_drain_waiters (v : nat) (s : writer) : writer :=
  {| _sharedBuffer := _sharedBuffer s; S_WRITE_INDEX := S_WRITE_INDEX s;
     S_WRITE_CYCLE := S_WRITE_CYCLE s; S_WRITE_PROCESS := S_WRITE_PROCESS s;
     _extraBuffer := _extraBuffer s; _process := _process s; _cycle := _cycle s;
     _write := _write s; _ready := _ready s; _ended := _ended s; _closed := _closed s;
     _ending := _ending s; _errored := _errored s; _destroyed := _destroyed s;
     _flashing := _flashing s; _finished := _finished s; _needDrain := _needDrain s;
     _watching := _watching s; write_entry := write_entry s; drain_waiters := v;
     watch_waiters := watch_waiters s; sync_waiter := sync_waiter s;
     drain_listeners := drain_listeners s; clock := clock s |}.
Definition set_watch_waiters (v : nat) (s : writer) : writer :=
  {| _sharedBuffer := _sharedBuffer s; S_WRITE_INDEX := S_WRITE_INDEX s;
     S_WRITE_CYCLE := S_WRITE_CYCLE s; S_WRITE_PROCESS := S_WRITE_PROCESS s;
     _extraBuffer := _extraBuffer s; _process := _process s; _cycle := _cycle s;
     _write := _write s; _ready := _ready s; _ended := _ended s; _closed := _closed s;
     _ending := _ending s; _errored := _errored s; _destroyed := _destroyed s;
     _flashing := _flashing s; _finished := _finished s; _needDrain := _needDrain s;
     _watching := _watching s; write_entry := write_entry s; drain_waiters := drain_waiters s;
     watch_waiters := v; sync_waiter := sync_waiter s; drain_listeners := drain_listeners s;
     clock := clock s |}.
Definition set_sync_waiter (v : bool) (s : writer) : writer :=
  {| _sharedBuffer := _sharedBuffer s; S_WRITE_INDEX := S_WRITE_INDEX s;
     S_WRITE_CYCLE := S_WRITE_CYCLE s; S_WRITE_PROCESS := S_WRITE_PROCESS s;
     _extraBuffer := _extraBuffer s; _process := _process s; _cycle := _cycle s;
     _write := _write s; _ready := _ready s; _ended := _ended s; _closed := _closed s;
     _ending := _ending s; _errored := _errored s; _destroyed := _destroyed s;
     _flashing := _flashing s; _finished := _finished s; _needDrain := _needDrain s;
     _watching := _watching s; write_entry := write_entry s; drain_waiters := drain_waiters s;
     watch_waiters := watch_waiters s; sync_waiter := v; drain_listeners := drain_listeners s;
     clock := clock s |}.
Definition set_drain_listeners (v : nat) (s : writer) : writer :=
  {| _sharedBuffer := _sharedBuffer s; S_WRITE_INDEX := S_WRITE_INDEX s;
     S_WRITE_CYCLE := S_WRITE_CYCLE s; S_WRITE_PROCESS := S_WRITE_PROCESS s;
     _extraBuffer := _extraBuffer s; _process := _process s; _cycle := _cycle s;
     _write := _write s; _ready := _ready s; _ended := _ended s; _closed := _closed s;
     _ending := _ending s; _errored := _errored s; _destroyed := _destroyed s;
     _flashing := _flashing s; _finished := _finished s; _needDrain := _needDrain s;
     _watching := _watching s; write_entry := write_entry s; drain_waiters := drain_waiters s;
     watch_waiters := watch_waiters s; sync_waiter := sync_waiter s; drain_listeners := v;
     clock := clock s |}.
Definition set_clock (v : nat) (s : writer) : writer :=
  {| _sharedBuffer := _sharedBuffer s; S_WRITE_INDEX := S_WRITE_INDEX s;
     S_WRITE_CYCLE := S_WRITE_CYCLE s; S_WRITE_PROCESS := S_WRITE_PROCESS s;
     _extraBuffer := _extraBuffer s; _process := _process s; _cycle := _cycle s;
     _write := _write s; _ready := _ready s; _ended := _ended s; _closed := _closed s;
     _ending := _ending s; _errored := _errored s; _destroyed := _destroyed s;
     _flashing := _flashing s; _finished := _finished s; _needDrain := _needDrain s;
     _watching := _watching s; write_entry := write_entry s; drain_waiters := drain_waiters s;
     watch_waiters := watch_waiters s; sync_waiter := sync_waiter s;
     drain_listeners := drain_listeners s; clock := v |}.

(** The writer right after [new Writable({ sharedState, sharedBuffer })]
    over a zero-filled shared state.  Modelled from the spec: the zero word
    of WRITE_PROCESS reads as EMPTY ("not yet attached"). *)
Definition writer_init (B : list Z) : writer :=
  {| _sharedBuffer := B; S_WRITE_INDEX := 0; S_WRITE_CYCLE := 0;
     S_WRITE_PROCESS := EMPTY_SIGN; _extraBuffer := []; _process := EMPTY_SIGN;
     _cycle := 0; _write := 0; _ready := false; _ended := false; _closed := false;
     _ending := false; _errored := None; _destroyed := false; _flashing := false;
     _finished := false; _needDrain := false; _watching := false; write_entry := Engine;
     drain_waiters := 0; watch_waiters := 0; sync_waiter := false;
     drain_listeners := 0; clock := 0 |}.

(** [get writable()] *)
Definition writable (s : writer) : bool := negb (_destroyed s) && negb (_ending s).

(** ** The monad: configuration and reader, writer state, observations,
    exceptions *)

Inductive outcome (A : Type) := Ret (a : A) | Throw (e : err) | OutOfFuel.
Arguments Ret {A} a.
Arguments Throw {A} e.
Arguments OutOfFuel {A}.

Definition M (A : Type) : Type := env -> writer -> writer * list obs * outcome A.

Definition ret {A} (a : A) : M A := fun _ s => (s, [], Ret a).
Definition throw {A} (e : err) : M A := fun _ s => (s, [], Throw e).
Definition out_of_fuel {A} : M A := fun _ s => (s, [], OutOfFuel).

Definition bind {A B} (m : M A) (k : A -> M B) : M B :=
  fun E s =>
    match m E s with
    | (s1, l1, Ret a) => let '(s2, l2, r) := k a E s1 in (s2, l1 ++ l2, r)
    | (s1, l1, Throw e) => (s1, l1, Throw e)
    | (s1, l1, OutOfFuel) => (s1, l1, OutOfFuel)
    end.

Notation "x <- m ;; k" := (bind m (fun x => k))
  (at level 61, m at next level, right associativity).
Notation "m ;; k" := (bind m (fun _ => k)) (at level 61, right associativity).

Definition get : M writer := fun _ s => (s, [], Ret s).
Definition ask : M env := fun E s => (s, [], Ret E).
Definition modify (f : writer -> writer) : M unit := fun _ s => (f s, [], Ret tt).
Definition observe (o : obs) : M unit := fun _ s => (s, [o], Ret tt).
Definition emit (ev : event) : M unit := observe (Emit ev).

(** [Atomics.load] of a reader word. *)
Definition load {A} (f : reader_words -> A) : M A :=
  fun E s => (set_clock (S (clock s)) s, [], Ret (f (reader E (clock s)))).

(** [Atomics.wait(state, READ_INDEX, expected, timeout)]. *)
Definition wait_index (expected : Z) : M wait_result :=
  fun E s =>
    let t := clock s in
    let r := if READ_INDEX (reader E t) =? expected
             then (if notified E t then WOk else WTimedOut) else WNotEqual in
    (set_clock (S t) s, [BlockedIndex expected r], Ret r).

(** [Atomics.wait(state, READ_PROCESS, expected, timeout)]. *)
Definition wait_process (expected : sign) : M wait_result :=
  fun E s =>
    let t := clock s in
    let r := if sign_eqb (READ_PROCESS (reader E t)) expected
             then (if notified E t then WOk else WTimedOut) else WNotEqual in
    (set_clock (S t) s, [BlockedProcess expected r], Ret r).

(** [Atomics.waitAsync(...)]: [{ async: true }] with a pending promise, or
    [{ async: false, value }] already settled. *)
Inductive async_wait := Pending | Settled (v : wait_result).

Definition wait_async_index (expected : Z) : M async_wait :=
  fun E s =>
    let t := clock s in
    (set_clock (S t) s, [],
     Ret (if READ_INDEX (reader E t) =? expected then Pending else Settled WNotEqual)).

Definition wait_async_process (expected : sign) : M async_wait :=
  fun E s =>
    let t := clock s in
    (set_clock (S t) s, [],
     Ret (if sign_eqb (READ_PROCESS (reader E t)) expected then Pending
          else Settled WNotEqual)).

(** ** Buffer *)

Definition splice (B : list Z) (off : Z) (bs : list Z) : list Z :=
  firstn (Z.to_nat off) B ++ bs ++ skipn (Z.to_nat off + length bs) B.

(** [buf.write(string, offset)]: a RangeError when [offset] is outside
    [0, buf.length]; otherwise writes the bytes that fit and returns their
    number. *)
Definition buffer_write (data : payload) (offset : Z) : M Z :=
  s <- get;;
  let B := _sharedBuffer s in
  if (offset <? 0) || (Zlength B <? offset) then throw RangeError
  else
    let bs := firstn (Z.to_nat (Zlength B - offset)) data in
    modify (set_sharedBuffer (splice B offset bs));;
    ret (Zlength bs).

(** The four little-endian bytes of a 32-bit integer. *)
Definition le32 (v : Z) : list Z :=
  map (fun i => Z.land (Z.shiftr v (8 * i)) 255) [0; 1; 2; 3].

(** [buf.writeInt32LE(value, offset)]. *)
Definition writeInt32LE (v offset : Z) : M unit :=
  s <- get;;
  let B := _sharedBuffer s in
  if (v <? - 2 ^ 31) || (2 ^ 31 - 1 <? v) then throw RangeError
  else if (offset <? 0) || (Zlength B - 4 <? offset) then throw RangeError
  else modify (set_sharedBuffer (splice B offset (le32 v))).

(** [buf.writeUInt8(value, offset)]. *)
Definition writeUInt8 (v offset : Z) : M unit :=
  s <- get;;
  let B := _sharedBuffer s in
  if (v <? 0) || (255 <? v) then throw RangeError
  else if (offset <? 0) || (Zlength B - 1 <? offset) then throw RangeError
  else modify (set_sharedBuffer (splice B offset [v])).

(** ** The ring framer and the write engine *)

(** [_store(data, isNotFin = 0)]; the frame becomes visible with the store
    of WRITE_INDEX ([Atomics.notify] wakes the reader, part of the
    environment). *)
Definition _store (data : payload) (isNotFin : Z) : M unit :=
  E <- ask;;
  s <- get;;
  written <- buffer_write data (_write s + PREFIX_SIZE);;
  writeInt32LE written (_write s);;
  writeUInt8 isNotFin (_write s + written + EXTRA_SPACE E);;
  modify (fun s => set_write (_write s + PREFIX_SIZE + written + POSTFIX_SIZE E + 1) s);;
  s <- get;;
  modify (set_S_WRITE_INDEX (_write s));;
  observe (Frame (firstn (Z.to_nat written) data) isNotFin).

(** [FakeWrite(data)]. *)
Definition FakeWrite (data : option payload) : M bool :=
  modify (fun s => set_extraBuffer (_extraBuffer s ++ [data]) s);;
  ret true.

(** The [do { ... } while (status === 'timed-out')] loop of the sync case. *)
Fixpoint spin_read (n : nat) (read spins : Z) : M unit :=
  match n with
  | O => out_of_fuel
  | S n' =>
      status <- wait_index read;;
      if spins + 1 =? READ_SPINS then throw TOO_LONG_READING
      else if wait_result_eqb status WTimedOut then spin_read n' read (spins + 1)
      else ret tt
  end.

(** [Write(sync, toWrite)]; each recursive [Write.call] spends one unit of
    fuel. *)
Fixpoint Write (fuel : nat) (sync : bool) (toWrite : option payload) : M bool :=
  match fuel with
  | O => out_of_fuel
  | S fuel' =>
    s <- get;;
    if negb (writable s) then ret false else
    read <- load READ_INDEX;;
    cycle <- load READ_CYCLE;;
    E <- ask;;
    s <- get;;
    let isBehind := (_write s <? read) || (cycle <? _cycle s) in
    let leftover := (if isBehind then read else Zlength (_sharedBuffer s)) - _write s in
    if leftover <? 0 then throw E_overwritten else
    if _cycle s <? cycle then throw E_read_further else
    let leftover := leftover - (EXTRA_SPACE E + 1) in
    if (leftover <=? 0) && isBehind then
      (if sync then
         spin_read (Z.to_nat READ_SPINS) read 0;;
         Write fuel' false toWrite
       else
         a <- wait_async_index read;;
         match a with
         | Settled _ => Write fuel' sync toWrite
         | Pending =>
             modify (fun s => set_drain_waiters (S (drain_waiters s)) s);;
             modify (set_write_entry Stub);;
             modify (set_needDrain true);;
             FakeWrite toWrite
         end)
    else if (leftover <=? 0) && negb isBehind then
      modify (set_write 0);;
      modify (set_S_WRITE_INDEX 0);;
      modify (fun s => set_S_WRITE_CYCLE (_cycle s) (set_cycle (_cycle s + 1) s));;
      Write fuel' sync toWrite
    else
      match toWrite with
      | None => throw TypeError  (* Buffer.byteLength(undefined) *)
      | Some data =>
          if leftover <? Zlength data + EXTRA_SPACE E then
            _store (firstn (Z.to_nat leftover) data) 1;;
            Write fuel' sync (Some (skipn (Z.to_nat leftover) data))
          else
            _store data 0;;
            ret false
      end
  end.

(** ** The lifecycle controller *)

Definition is_active (x : sign) : bool := sign_eqb x READY_SIGN || sign_eqb x EMPTY_SIGN.

(** [destroy(err)]. *)
Definition destroy (e : option err) : M unit :=
  s <- get;;
  if negb (writable s) then ret tt else
  modify (set_watching false);;
  readStatus <- load READ_PROCESS;;
  s <- get;;
  let writeStatus := S_WRITE_PROCESS s in
  let writeActive := is_active writeStatus in
  let readActive := is_active readStatus in
  (if writeActive && readActive then
     modify (set_S_WRITE_PROCESS
               (match e with Some _ => FAILED_SIGN | None => FINISHED_SIGN end))
   else ret tt);;
  (match e with
   | Some x => modify (set_errored (Some x));; emit (EvError x)
   | None => ret tt
   end);;
  modify (set_destroyed true);;
  modify (set_closed true);;
  emit EvClose.

(** The spin loop of [end()]:
    [while (status !== FAILED_SIGN || status !== FINISHED_SIGN) { ... }]. *)
Fixpoint end_spin (n : nat) (spins : Z) (status : sign) : M sign :=
  if negb (sign_eqb status FAILED_SIGN) || negb (sign_eqb status FINISHED_SIGN) then
    match n with
    | O => out_of_fuel
    | S n' =>
        wait_process status;;
        status' <- load READ_PROCESS;;
        if spins + 1 =? FINISH_SPINS then ret status'
        else end_spin n' (spins + 1) status'
    end
  else ret status.

(** [end()] ([end] is a keyword of Rocq). *)
Definition end_ : M unit :=
  s <- get;;
  if negb (writable s) then ret tt else
  modify (set_process FINISHING_SIGN);;
  modify (set_watching false);;
  modify (set_ending true);;
  status <- load READ_PROCESS;;
  (if sign_eqb status READY_SIGN || sign_eqb status EMPTY_SIGN
      || sign_eqb status FINISHING_SIGN
   then modify (set_S_WRITE_PROCESS FINISHING_SIGN) else ret tt);;
  let origin := status in
  status <- end_spin (Z.to_nat FINISH_SPINS) 0 status;;
  if sign_eqb status FAILED_SIGN || sign_eqb status origin then
    modify (set_ending false);;
    (if sign_eqb status origin then destroy (Some FAILED_TO_FINISH_TIMEOUT)
     else destroy (Some FAILED_TO_FINISH_READER))
  else
    modify (set_S_WRITE_PROCESS FINISHED_SIGN);;
    modify (set_process FINISHED_SIGN);;
    modify (set_finished true);;
    modify (set_ended true);;
    emit EvFinish.

Fixpoint run_end (n : nat) : M unit :=
  match n with O => ret tt | S n' => end_;; run_end n' end.

(** [this.emit('drain')]: the [once('drain', () => void this.end())]
    listeners registered by [_watch] are removed and called. *)
Definition emit_drain : M unit :=
  emit EvDrain;;
  s <- get;;
  modify (set_drain_listeners 0);;
  run_end (drain_listeners s).

(** [this._extraBuffer.shift()]. *)
Definition shift (q : list (option payload)) : option payload * list (option payload) :=
  match q with [] => (None, []) | x :: r => (x, r) end.

(** [_drain()]: the [do { ... } while (this._extraBuffer.length)] loop. *)
Fixpoint _drain (fuel : nat) : M bool :=
  match fuel with
  | O => out_of_fuel
  | S fuel' =>
      s <- get;;
      let '(item, rest) := shift (_extraBuffer s) in
      modify (set_extraBuffer rest);;
      status <- Write fuel' false item;;
      if status then ret false else
      s <- get;;
      if Nat.eqb (length (_extraBuffer s)) 0 then
        modify (set_write_entry Engine);;
        modify (set_needDrain false);;
        emit_drain;;
        ret true
      else _drain fuel'
  end.

(** [_watch()]. *)
Fixpoint _watch (fuel : nat) : M unit :=
  match fuel with
  | O => out_of_fuel
  | S fuel' =>
      s <- get;;
      if negb (_watching s) then ret tt else
      status <- load READ_PROCESS;;
      let rest :=
        (if sign_eqb status FAILED_SIGN || sign_eqb status FINISHED_SIGN then
           destroy (Some READER_EXIT_WHILE_WATCH)
         else
           a <- wait_async_process status;;
           match a with
           | Settled _ => _watch fuel'
           | Pending => modify (fun s => set_watch_waiters (S (watch_waiters s)) s)
           end) in
      if sign_eqb status FINISHING_SIGN then
        (s <- get;;
         if Nat.eqb (length (_extraBuffer s)) 0 then end_
         else modify (fun s => set_drain_listeners (S (drain_listeners s)) s);; rest)
      else rest
  end.

(** [synchronize()]; [this._synchronize] is not a method of the class, so
    calling it throws a TypeError. *)
Definition synchronize : M unit :=
  modify (set_process READY_SIGN);;
  modify (set_S_WRITE_PROCESS READY_SIGN);;
  status <- load READ_PROCESS;;
  if sign_eqb status READY_SIGN then
    modify (set_ready true);;
    emit EvReady
  else if negb (sign_eqb status EMPTY_SIGN) then destroy (Some READER_EXIT_BEFORE_SYNC)
  else
    result <- wait_async_process EMPTY_SIGN;;
    match result with
    | Settled v =>
        if wait_result_eqb v WNotEqual then throw TypeError
        else destroy (Some READER_FAILED_TIMEOUT)
    | Pending => modify (set_sync_waiter true)
    end.

(** The continuation [result.value.then(v => { ... })] of [synchronize]. *)
Definition synchronize_settled (fuel : nat) (v : wait_result) : M unit :=
  if negb (wait_result_eqb v WOk) then destroy (Some READER_FAILED_TIMEOUT) else
  status <- load READ_PROCESS;;
  if negb (sign_eqb status READY_SIGN) then destroy (Some READER_EXIT_AT_SYNC) else
  modify (set_watching true);;
  modify (set_ready true);;
  emit EvReady;;
  _watch fuel.

(** ** Sessions: calls of the public methods and runs of pending
    continuations, in any order *)

Inductive op :=
  | OpWrite (p : payload)          (* writer.write(p) *)
  | OpWriteSync (p : payload)      (* writer.writeSync(p) *)
  | OpDestroy (e : option err)
  | OpEnd
  | OpSynchronize
  | OpDrainWake                    (* a READ_INDEX promise of Write resolves *)
  | OpWatchWake                    (* a READ_PROCESS promise of _watch resolves *)
  | OpSyncSettle (v : wait_result). (* the promise of synchronize settles *)

(** [writer.write(p)]: whatever [this.write] is bound to. *)
Definition public_write (fuel : nat) (p : payload) : M bool :=
  s <- get;;
  match write_entry s with
  | Engine => Write fuel false (Some p)
  | Stub => FakeWrite (Some p)
  end.

Inductive titem :=
  | TObs (o : obs)
  | TWrite (r : outcome bool)
  | TWriteSync (r : outcome bool).

Definition run_unit {A} (m : M A) (E : env) (s : writer) : writer * list titem :=
  let '(s', l, _) := m E s in (s', map TObs l).

Definition session_step (fuel : nat) (E : env) (s : writer) (o : op) : writer * list titem :=
  match o with
  | OpWrite p =>
      let '(s', l, r) := public_write fuel p E s in (s', map TObs l ++ [TWrite r])
  | OpWriteSync p =>
      let '(s', l, r) := Write fuel true (Some p) E s in (s', map TObs l ++ [TWriteSync r])
  | OpDestroy e => run_unit (destroy e) E s
  | OpEnd => run_unit end_ E s
  | OpSynchronize => run_unit synchronize E s
  | OpDrainWake =>
      match drain_waiters s with
      | O => (s, [])
      | S n => run_unit (_drain fuel) E (set_drain_waiters n s)
      end
  | OpWatchWake =>
      match watch_waiters s with
      | O => (s, [])
      | S n => run_unit (_watch fuel) E (set_watch_waiters n s)
      end
  | OpSyncSettle v =>
      if sync_waiter s then run_unit (synchronize_settled fuel v) E (set_sync_waiter false s)
      else (s, [])
  end.

Fixpoint session (fuel : nat) (E : env) (s : writer) (ops : list op) : writer * list titem :=
  match ops with
  | [] => (s, [])
  | o :: ops' =>
      let '(s1, t1) := session_step fuel E s o in
      let '(s2, t2) := session fuel E s1 ops' in
      (s2, t1 ++ t2)
  end.

(** ** Definitions used in the statements and proofs below *)

Definition st_of {A} (x : writer * list obs * outcome A) : writer :=
  let '(s, _, _) := x in s.

(** [P] holds after the computation whenever it held before, whatever the
    computation returns or throws. *)
Definition preserves (P : writer -> Prop) {A} (m : M A) : Prop :=
  forall E s, P s -> P (st_of (m E s)).

(** [this.write] is bound to [w]. *)
Definition entry_is (w : entry) (s : writer) : Prop := write_entry s = w.
Arguments entry_is w s /.

(** A computation that, when it returns [true], leaves [this.write] bound to
    [FakeWrite]. *)
Definition true_stub (m : M bool) : Prop :=
  forall E s, match m E s with (s', _, Ret true) => write_entry s' = Stub | _ => True end.

(** Every call of [writer.write] in a session trace returns [true] until a
    'drain' event is emitted. *)
Fixpoint true_until_drain (tr : list titem) : Prop :=
  match tr with
  | [] => True
  | TObs (Emit EvDrain) :: _ => True
  | TWrite r :: tr' => r = Ret true /\ true_until_drain tr'
  | _ :: tr' => true_until_drain tr'
  end.

Definition writes_true (tr : list titem) : Prop := forall r, In (TWrite r) tr -> r = Ret true.

(** The payloads of a trace's frames, with their NOT_FINAL byte. *)
Fixpoint frames_of (tr : list titem) : list (payload * Z) :=
  match tr with
  | [] => []
  | TObs (Frame d n) :: tr' => (d, n) :: frames_of tr'
  | _ :: tr' => frames_of tr'
  end.

(** How frames read back into payloads (the framing of the spec, section 3):
    the payloads of consecutive NOT_FINAL=1 frames and of the NOT_FINAL=0
    frame that ends them, concatenated. *)
Fixpoint messages (fs : list (payload * Z)) (acc : payload) : list payload :=
  match fs with
  | [] => []
  | (d, n) :: fs' =>
      if n =? 0 then (acc ++ d) :: messages fs' [] else messages fs' (acc ++ d)
  end.

(** *** A ring of 32 bytes with a reader that consumes one frame at a time *)

(** The reader sits at offset 0, then consumes the frame of "A" (to 6),
    the empty frame (to 11) and the 21-byte head frame of [p28] (to 32),
    all in its cycle 0. *)
Definition ring_reader (t : nat) : reader_words :=
  if Nat.leb t 3 then mkReaderWords 0 0 READY_SIGN
  else if Nat.leb t 12 then mkReaderWords 6 0 READY_SIGN
  else if Nat.leb t 15 then mkReaderWords 11 0 READY_SIGN
  else mkReaderWords 32 0 READY_SIGN.

Definition E_ring : env := mkEnv 0 ring_reader (fun _ => false).

Definition ring0 : writer := writer_init (repeat 0 32).

(** A payload of 28 bytes ("abc..."), more than [32 - EXTRA_SPACE - 1]. *)
Definition p28 : payload := map Z.of_nat (seq 97 28).

(** write("A"), write(""), write(p28), write("Z"), then the two wake-ups of
    the pending READ_INDEX waits. *)
Definition ring_ops : list op :=
  [OpWrite [65]; OpWrite []; OpWrite p28; OpWrite [90]; OpDrainWake; OpDrainWake].

(** The writer after the first [n] operations of [ring_ops]. *)
Definition ring_after (n : nat) : writer := fst (session 20 E_ring ring0 (firstn n ring_ops)).

(** write("A"), write(""), write(p28) (backpressure), destroy(), then a
    write, the wake-up of the pending READ_INDEX wait, and another write. *)
Definition destroy_ops : list op :=
  [OpWrite [65]; OpWrite []; OpWrite p28; OpDestroy None; OpWrite [1]; OpDrainWake; OpWrite [2]].

(** *** Single calls *)

(** A reader that stays at offset 0 of cycle 0, READY. *)
Definition E_still : env := mkEnv 0 (fun _ => mkReaderWords 0 0 READY_SIGN) (fun _ => false).

(** A writer at offset 12 of a 16-byte ring, the reader caught up with it. *)
Definition wrap_state : writer := set_write 12 (writer_init (repeat 0 16)).
Definition E_caught_up : env :=
  mkEnv 0 (fun _ => mkReaderWords 12 0 READY_SIGN) (fun _ => false).

(** A writer at offset 10 of a 16-byte ring, the reader at offset 4 but
    already in cycle 1. *)
Definition fault_state : writer := set_write 10 (writer_init (repeat 0 16)).
Definition E_ahead : env := mkEnv 0 (fun _ => mkReaderWords 4 1 READY_SIGN) (fun _ => false).

(** The reader is READY when [end()] starts, and a notify ends the first
    blocking wait: it has become FINISHED and stays so. *)
Definition E_finish : env :=
  mkEnv 0 (fun t => mkReaderWords 0 0 (if Nat.leb t 1 then READY_SIGN else FINISHED_SIGN))
    (fun t => Nat.eqb t 1).

(** ** The getters of [Writable] *)

Definition writableEnded (s : writer) : bool := _ending s.
Definition writableFinished (s : writer) : bool := _finished s.
Definition writableErrored (s : writer) : bool :=
  match _errored s with Some _ => true | None => false end.
Definition ready (s : writer) : bool := _ready s.
Definition closed (s : writer) : bool := _closed s.
Definition writableNeedDrain (s : writer) : bool := _needDrain s.
Definition writableObjectMode (s : writer) : bool := false.

(** ** Reading a ring back *)

(** [n] bytes of [B] from offset [i]. *)
Definition zsub (B : list Z) (i n : Z) : list Z := firstn (Z.to_nat n) (skipn (Z.to_nat i) B).

(** The value of bytes read as an unsigned little-endian integer
    ([buf.readUInt32LE] on four bytes). *)
Definition le_value (bs : list Z) : Z := fold_right (fun b acc => b + 256 * acc) 0 bs.

(** The write cursor lies in the ring, whose size is [n]. *)
Definition cursor_ok (n : nat) (s : writer) : Prop :=
  length (_sharedBuffer s) = n /\ 0 <= _write s <= Z.of_nat n.
Arguments cursor_ok n s /.

(** [writableNeedDrain] is set exactly while [this.write] is [FakeWrite]. *)
Definition need_drain_ok (s : writer) : Prop :=
  _needDrain s = match write_entry s with Stub => true | Engine => false end.
Arguments need_drain_ok s /.

(** ** Definitions used by the further properties *)

(** The three stores of [_store] when the frame fits in the ring. *)
Definition store_bytes (B : list Z) (w P : Z) (d : payload) (nf : Z) : list Z :=
  splice (splice (splice B (w + PREFIX_SIZE) d) w (le32 (Zlength d)))
    (w + Zlength d + (PREFIX_SIZE + P)) [nf].

(** The write cursor is at [w]. *)
Definition write_is (w : Z) (s : writer) : Prop := _write s = w.
Arguments write_is w s /.

(** The trace of a call on a writer that is not writable and whose [write]
    is the engine. *)
Definition inert_trace (o : op) : list titem :=
  match o with
  | OpWrite _ => [TWrite (Ret false)]
  | OpWriteSync _ => [TWriteSync (Ret false)]
  | _ => []
  end.

(** The calls that begin with the [writable] check. *)
Definition guarded_op (o : op) : bool :=
  match o with OpWrite _ | OpWriteSync _ | OpEnd | OpDestroy _ => true | _ => false end.

(** A blocking [Atomics.wait] on READ_PROCESS. *)
(** The pending [_watch] wake-ups, the [once('drain', end)] listeners and
    the overflow queue are [ww], [dl] and [q]. *)
Definition listeners_queue_are (ww dl : nat) (q : list (option payload)) (s : writer) : Prop :=
  watch_waiters s = ww /\ drain_listeners s = dl /\ _extraBuffer s = q.
Arguments listeners_queue_are ww dl q s /.

Definition is_blocked_process (o : obs) : bool :=
  match o with BlockedProcess _ _ => true | _ => false end.

(** A reader that has already finished. *)
Definition E_gone : env := mkEnv 0 (fun _ => mkReaderWords 0 0 FINISHED_SIGN) (fun _ => false).

(** A reader that attaches between the two reads of [synchronize]. *)
Definition E_attach : env :=
  mkEnv 0 (fun t => mkReaderWords 0 0 (if Nat.eqb t 0 then EMPTY_SIGN else READY_SIGN))
    (fun _ => false).

(** A reader at offset 4 of cycle 0 that does not move. *)
Definition E_blocked : env := mkEnv 0 (fun _ => mkReaderWords 4 0 READY_SIGN) (fun _ => false).

(** A reader that is finishing. *)
Definition E_finishing : env :=
  mkEnv 0 (fun _ => mkReaderWords 0 0 FINISHING_SIGN) (fun _ => false).
(** ** Reasoning about [M] *)

Lemma bind_cases {A B} (m : M A) (k : A -> M B) E s s' l r :
  bind m k E s = (s', l, r) ->
  (exists a s1 l1 l2, m E s = (s1, l1, Ret a) /\ k a E s1 = (s', l2, r) /\ l = l1 ++ l2) \/
  (exists e, m E s = (s', l, Throw e) /\ r = Throw e) \/
  (m E s = (s', l, OutOfFuel) /\ r = OutOfFuel).
Proof.
  unfold bind. destruct (m E s) as [[s1 l1] [a | e |]].
  - destruct (k a E s1) as [[s2 l2] r2] eqn:Hk. intros H. inversion H; subst.
    left. exists a, s1, l1, l2. auto.
  - intros H. inversion H; subst. right; left. eauto.
  - intros H. inversion H; subst. right; right. auto.
Qed.

Lemma bind_ret {A B} (m : M A) (k : A -> M B) E s s1 l1 a :
  m E s = (s1, l1, Ret a) ->
  bind m k E s = let '(s2, l2, r) := k a E s1 in (s2, l1 ++ l2, r).
Proof. intros H. unfold bind. rewrite H. reflexivity. Qed.

Lemma triple_eta {A} (x : writer * list obs * outcome A) :
  (let '(s2, l2, r) := x in (s2, l2, r)) = x.
Proof. destruct x as [[? ?] ?]; reflexivity. Qed.

Lemma bind_unfold {A B} (m : M A) (k : A -> M B) E s :
  bind m k E s =
  match m E s with
  | (s1, l1, Ret a) => let '(s2, l2, r) := k a E s1 in (s2, l1 ++ l2, r)
  | (s1, l1, Throw e) => (s1, l1, Throw e)
  | (s1, l1, OutOfFuel) => (s1, l1, OutOfFuel)
  end.
Proof. reflexivity. Qed.

Lemma bind_get {B} (k : writer -> M B) E s : bind get k E s = k s E s.
Proof. apply triple_eta. Qed.

Lemma bind_ask {B} (k : env -> M B) E s : bind ask k E s = k E E s.
Proof. apply triple_eta. Qed.

Lemma bind_modify {B} f (k : unit -> M B) E s : bind (modify f) k E s = k tt E (f s).
Proof. apply triple_eta. Qed.

Lemma bind_observe {B} o (k : unit -> M B) E s :
  bind (observe o) k E s = let '(s2, l2, r) := k tt E s in (s2, o :: l2, r).
Proof. reflexivity. Qed.

Section Preserves.

Variable P : writer -> Prop.

Hypothesis P_clock : forall n s, P s -> P (set_clock n s).

Lemma preserves_bind {A B} (m : M A) (k : A -> M B) :
  preserves P m -> (forall a, preserves P (k a)) -> preserves P (bind m k).
Proof.
  intros Hm Hk E s Hs. unfold bind. specialize (Hm E s Hs).
  destruct (m E s) as [[s1 l1] [a | e |]]; simpl in *; auto.
  specialize (Hk a E s1 Hm). destruct (k a E s1) as [[s2 l2] r2]. exact Hk.
Qed.

Lemma preserves_ret {A} (a : A) : preserves P (ret a).
Proof. intros E s Hs. exact Hs. Qed.

Lemma preserves_throw {A} e : preserves (A := A) P (throw e).
Proof. intros E s Hs. exact Hs. Qed.

Lemma preserves_out_of_fuel {A} : preserves (A := A) P out_of_fuel.
Proof. intros E s Hs. exact Hs. Qed.

Lemma preserves_get : preserves P get.
Proof. intros E s Hs. exact Hs. Qed.

Lemma preserves_ask : preserves P ask.
Proof. intros E s Hs. exact Hs. Qed.

Lemma preserves_observe o : preserves P (observe o).
Proof. intros E s Hs. exact Hs. Qed.

Lemma preserves_emit ev : preserves P (emit ev).
Proof. intros E s Hs. exact Hs. Qed.

Lemma preserves_modify f : (forall s, P s -> P (f s)) -> preserves P (modify f).
Proof. intros Hf E s Hs. exact (Hf s Hs). Qed.

Lemma preserves_load {A} (f : reader_words -> A) : preserves P (load f).
Proof. intros E s Hs. apply P_clock, Hs. Qed.

Lemma preserves_wait_index x : preserves P (wait_index x).
Proof. intros E s Hs. apply P_clock, Hs. Qed.

Lemma preserves_wait_process x : preserves P (wait_process x).
Proof. intros E s Hs. apply P_clock, Hs. Qed.

Lemma preserves_wait_async_index x : preserves P (wait_async_index x).
Proof. intros E s Hs. apply P_clock, Hs. Qed.

Lemma preserves_wait_async_process x : preserves P (wait_async_process x).
Proof. intros E s Hs. apply P_clock, Hs. Qed.

End Preserves.

Create HintDb pres.
#[export] Hint Resolve preserves_ret preserves_throw preserves_out_of_fuel preserves_get
  preserves_ask preserves_observe preserves_emit preserves_load preserves_wait_index
  preserves_wait_process preserves_wait_async_index preserves_wait_async_process : pres.

(** Split a computation into its binds, branches and primitive steps. *)
Ltac pres :=
  repeat match goal with
    | |- preserves _ (bind _ _) => apply preserves_bind; [ | intros ?; cbv beta ]
    | |- preserves _ (match ?x with _ => _ end) => destruct x
    | |- preserves _ (let _ := _ in _) => cbv zeta
    | |- preserves _ (modify _) => apply preserves_modify; intros ?s ?Hs; simpl in *; try exact Hs; try reflexivity
    | |- _ => solve [eauto with pres]
    end.


Lemma entry_is_clock w n s : entry_is w s -> entry_is w (set_clock n s).
Proof. unfold entry_is; simpl; auto. Qed.
#[export] Hint Resolve entry_is_clock : pres.

Lemma buffer_write_entry w data off : preserves (entry_is w) (buffer_write data off).
Proof. unfold buffer_write. pres. Qed.

Lemma writeInt32LE_entry w v off : preserves (entry_is w) (writeInt32LE v off).
Proof. unfold writeInt32LE. pres. Qed.

Lemma writeUInt8_entry w v off : preserves (entry_is w) (writeUInt8 v off).
Proof. unfold writeUInt8. pres. Qed.
#[export] Hint Resolve buffer_write_entry writeInt32LE_entry writeUInt8_entry : pres.

Lemma _store_entry w data n : preserves (entry_is w) (_store data n).
Proof. unfold _store. pres. Qed.

Lemma FakeWrite_entry w d : preserves (entry_is w) (FakeWrite d).
Proof. unfold FakeWrite. pres. Qed.

Lemma spin_read_entry w n read spins : preserves (entry_is w) (spin_read n read spins).
Proof. revert spins; induction n; intros; simpl; pres. Qed.
#[export] Hint Resolve _store_entry FakeWrite_entry spin_read_entry : pres.

(** [Write] only ever binds [this.write] to [FakeWrite]. *)
Lemma Write_keeps_Stub fuel sync t : preserves (entry_is Stub) (Write fuel sync t).
Proof. revert sync t; induction fuel; intros; simpl; pres. Qed.

(** The lifecycle never rebinds [this.write]. *)
Lemma destroy_entry w e : preserves (entry_is w) (destroy e).
Proof. unfold destroy. pres. Qed.
#[export] Hint Resolve destroy_entry : pres.

Lemma end_spin_entry w n spins st : preserves (entry_is w) (end_spin n spins st).
Proof. revert spins st; induction n; intros; simpl; pres. Qed.
#[export] Hint Resolve end_spin_entry : pres.

Lemma end_entry w : preserves (entry_is w) end_.
Proof. unfold end_. pres. Qed.
#[export] Hint Resolve end_entry : pres.

Lemma run_end_entry w n : preserves (entry_is w) (run_end n).
Proof. induction n; simpl; pres. Qed.

Lemma _watch_entry w fuel : preserves (entry_is w) (_watch fuel).
Proof. induction fuel; simpl; pres. Qed.
#[export] Hint Resolve _watch_entry : pres.

Lemma synchronize_entry w : preserves (entry_is w) synchronize.
Proof. unfold synchronize. pres. Qed.

Lemma synchronize_settled_entry w fuel v : preserves (entry_is w) (synchronize_settled fuel v).
Proof. unfold synchronize_settled. pres. Qed.


Lemma true_stub_bind {A} (m : M A) (k : A -> M bool) :
  (forall a, true_stub (k a)) -> true_stub (bind m k).
Proof.
  intros Hk E s. unfold bind. destruct (m E s) as [[s1 l1] [a | e |]]; auto.
  specialize (Hk a E s1). destruct (k a E s1) as [[s2 l2] [[|] | |]]; auto.
Qed.

Lemma true_stub_rebind (m : M bool) :
  preserves (entry_is Stub) m -> true_stub (modify (set_write_entry Stub);; m).
Proof.
  intros Hm E s. unfold bind, modify.
  specialize (Hm E (set_write_entry Stub s) eq_refl).
  destruct (m E (set_write_entry Stub s)) as [[s2 l2] [[|] | |]]; auto.
Qed.

Lemma true_stub_false : true_stub (ret false).
Proof. intros E s. exact I. Qed.

Lemma true_stub_throw e : true_stub (throw e).
Proof. intros E s. exact I. Qed.

Lemma true_stub_out_of_fuel : true_stub out_of_fuel.
Proof. intros E s. exact I. Qed.

(** [Write] returns [true] only after binding [this.write] to [FakeWrite]. *)
Lemma Write_true_Stub fuel sync t : true_stub (Write fuel sync t).
Proof.
  revert sync t; induction fuel; intros; simpl; [apply true_stub_out_of_fuel |].
  repeat match goal with
    | |- true_stub (bind (modify (set_write_entry Stub)) _) => apply true_stub_rebind; pres
    | |- true_stub (bind _ _) => apply true_stub_bind; intros ?; cbv beta
    | |- true_stub (match ?x with _ => _ end) => destruct x
    | |- true_stub (let _ := _ in _) => cbv zeta
    | |- _ => solve [auto using true_stub_false, true_stub_throw]
    end.
Qed.

Lemma emit_drain_log E s :
  exists s' l r, emit_drain E s = (s', Emit EvDrain :: l, r).
Proof.
  unfold emit_drain, emit. rewrite (bind_observe _ _ E). cbv beta.
  match goal with |- context [match ?x with _ => _ end] => destruct x as [[s' l] r] end.
  eauto.
Qed.

Lemma _drain_Stub_or_drain fuel E s :
  entry_is Stub s ->
  let '(s', l, _) := _drain fuel E s in write_entry s' = Stub \/ In (Emit EvDrain) l.
Proof.
  revert s; induction fuel as [| fuel IH]; intros s Hs; [simpl; auto |].
  cbn [_drain]. rewrite (bind_get _ E s).
  destruct (shift (_extraBuffer s)) as [item rest].
  rewrite (bind_modify _ _ E s), (bind_unfold _ _ E).
  pose proof (Write_keeps_Stub fuel false item E (set_extraBuffer rest s) Hs) as HW.
  destruct (Write fuel false item E (set_extraBuffer rest s)) as [[s2 l2] r2].
  simpl in HW. destruct r2 as [[|] | |]; cbv beta; [simpl; auto | | simpl; auto ..].
  rewrite (bind_get _ E s2).
  destruct (Nat.eqb (length (_extraBuffer s2)) 0).
  - rewrite (bind_modify _ _ E s2), (bind_modify _ _ E), (bind_unfold _ _ E).
    destruct (emit_drain_log E (set_needDrain false (set_write_entry Engine s2)))
      as (s3 & l3 & r3 & ->).
    destruct r3; simpl; right; apply in_or_app; right; simpl; auto.
  - specialize (IH s2 HW).
    destruct (_drain fuel E s2) as [[s3 l3] r3].
    destruct IH as [IH | IH]; auto. right. apply in_or_app; auto.
Qed.

Lemma true_until_drain_quiet t1 t2 :
  writes_true t1 -> true_until_drain t2 -> true_until_drain (t1 ++ t2).
Proof.
  induction t1 as [| x t1 IH]; intros Hw H2; simpl; auto.
  assert (Hw' : writes_true t1) by (intros r Hr; apply Hw; right; exact Hr).
  destruct x as [o | r | r]; auto.
  - destruct o as [[] | | | ]; auto.
  - split; auto. apply Hw. left. reflexivity.
Qed.

Lemma true_until_drain_drained t1 t2 :
  writes_true t1 -> In (TObs (Emit EvDrain)) t1 -> true_until_drain (t1 ++ t2).
Proof.
  induction t1 as [| x t1 IH]; intros Hw Hin; simpl in *; [contradiction |].
  assert (Hw' : writes_true t1) by (intros r Hr; apply Hw; right; exact Hr).
  destruct Hin as [-> | Hin]; simpl; auto.
  destruct x as [o | r | r]; auto.
  - destruct o as [[] | | | ]; auto.
  - split; auto. apply Hw. left. reflexivity.
Qed.

Lemma writes_true_obs l : writes_true (map TObs l).
Proof. intros r Hr. apply in_map_iff in Hr. destruct Hr as (? & ? & _). discriminate. Qed.

Lemma writes_true_app t1 t2 : writes_true t1 -> writes_true t2 -> writes_true (t1 ++ t2).
Proof. intros H1 H2 r Hr. apply in_app_or in Hr. destruct Hr; auto. Qed.

Lemma writes_true_sync r : writes_true [TWriteSync r].
Proof. intros r' [H | []]. discriminate. Qed.

Lemma run_unit_Stub {A} (m : M A) E s :
  preserves (entry_is Stub) m -> entry_is Stub s ->
  let '(s1, t1) := run_unit m E s in
  writes_true t1 /\ (entry_is Stub s1 \/ In (TObs (Emit EvDrain)) t1).
Proof.
  intros Hm Hs. unfold run_unit. specialize (Hm E s Hs).
  destruct (m E s) as [[s1 l1] r1]. split; [apply writes_true_obs | left; exact Hm].
Qed.

(** One step of a session, from a writer whose [write] is [FakeWrite]: the
    [write] calls in it return [true], and [write] is still [FakeWrite]
    afterwards unless the step emitted 'drain'. *)
Lemma session_step_Stub fuel E s o :
  entry_is Stub s ->
  let '(s1, t1) := session_step fuel E s o in
  writes_true t1 /\ (entry_is Stub s1 \/ In (TObs (Emit EvDrain)) t1).
Proof.
  intros Hs. destruct o as [p | p | e | | | | | v]; simpl session_step.
  - unfold public_write. rewrite (bind_get _ E s). simpl in Hs. rewrite Hs.
    simpl. split.
    + intros r [H | []]. injection H as <-. reflexivity.
    + left. exact Hs.
  - pose proof (Write_keeps_Stub fuel true (Some p) E s Hs) as HW.
    destruct (Write fuel true (Some p) E s) as [[s1 l1] r1].
    split; [apply writes_true_app; [apply writes_true_obs | apply writes_true_sync] |].
    left. exact HW.
  - apply run_unit_Stub; auto using destroy_entry.
  - apply run_unit_Stub; auto using end_entry.
  - apply run_unit_Stub; auto using synchronize_entry.
  - destruct (drain_waiters s) as [| n]; [split; [intros r [] | left; exact Hs] |].
    unfold run_unit.
    pose proof (_drain_Stub_or_drain fuel E (set_drain_waiters n s) Hs) as HD.
    destruct (_drain fuel E (set_drain_waiters n s)) as [[s1 l1] r1].
    split; [apply writes_true_obs |].
    destruct HD as [HD | HD]; [left; exact HD | right; apply in_map; exact HD].
  - destruct (watch_waiters s) as [| n]; [split; [intros r [] | left; exact Hs] |].
    apply run_unit_Stub; auto using _watch_entry.
  - destruct (sync_waiter s); [| split; [intros r [] | left; exact Hs]].
    apply run_unit_Stub; auto using synchronize_settled_entry.
Qed.

Lemma session_Stub fuel E ops : forall s,
  entry_is Stub s -> true_until_drain (snd (session fuel E s ops)).
Proof.
  induction ops as [| o ops IH]; intros s Hs; simpl; auto.
  pose proof (session_step_Stub fuel E s o Hs) as Hstep.
  destruct (session_step fuel E s o) as [s1 t1].
  destruct Hstep as [Hw [H1 | H1]].
  - specialize (IH s1 H1). destruct (session fuel E s1 ops) as [s2 t2].
    apply true_until_drain_quiet; auto.
  - destruct (session fuel E s1 ops) as [s2 t2].
    apply true_until_drain_drained; auto.
Qed.

Lemma public_write_true_Stub fuel p E s s1 l1 :
  public_write fuel p E s = (s1, l1, Ret true) -> entry_is Stub s1.
Proof.
  unfold public_write. rewrite (bind_get _ E s).
  destruct (write_entry s) eqn:Hw.
  - pose proof (Write_true_Stub fuel false (Some p) E s) as H.
    intros Heq. rewrite Heq in H. exact H.
  - pose proof (FakeWrite_entry Stub (Some p) E s Hw) as H.
    intros Heq. rewrite Heq in H. exact H.
Qed.

(** ** Steps of the engine and of the lifecycle on a writer that is not
    writable *)

Lemma bind_load {A B} (f : reader_words -> A) (k : A -> M B) E s :
  bind (load f) k E s = k (f (reader E (clock s))) E (set_clock (S (clock s)) s).
Proof. apply triple_eta. Qed.

Lemma Write_not_writable fuel sync p E s :
  writable s = false -> Write (S fuel) sync p E s = (s, [], Ret false).
Proof. intros Hw. cbn [Write]. rewrite (bind_get _ E s), Hw. reflexivity. Qed.

Lemma end_not_writable E s : writable s = false -> end_ E s = (s, [], Ret tt).
Proof. intros Hw. unfold end_. rewrite (bind_get _ E s), Hw. reflexivity. Qed.

Lemma run_end_not_writable n E s : writable s = false -> run_end n E s = (s, [], Ret tt).
Proof.
  revert s; induction n as [| n IH]; intros s Hw; [reflexivity |].
  cbn [run_end]. rewrite (bind_ret _ _ E s s [] tt (end_not_writable E s Hw)).
  rewrite (IH s Hw). reflexivity.
Qed.

Lemma emit_drain_not_writable E s :
  writable s = false -> emit_drain E s = (set_drain_listeners 0 s, [Emit EvDrain], Ret tt).
Proof.
  intros Hw. unfold emit_drain, emit. rewrite bind_observe, (bind_get _ E s), bind_modify.
  rewrite run_end_not_writable; [reflexivity |]. exact Hw.
Qed.

Lemma destroyed_not_writable s : _destroyed s = true -> writable s = false.
Proof. intros Hd. unfold writable. rewrite Hd. reflexivity. Qed.

Lemma bind_Write_destroyed {B} fuel sync p (k : bool -> M B) E s :
  _destroyed s = true ->
  bind (Write (S fuel) sync p) k E s = let '(s2, l2, r) := k false E s in (s2, [] ++ l2, r).
Proof.
  intros Hd. apply bind_ret, Write_not_writable, destroyed_not_writable. exact Hd.
Qed.

Lemma bind_emit_drain_destroyed {B} (k : unit -> M B) E s :
  _destroyed s = true ->
  bind emit_drain k E s =
  let '(s2, l2, r) := k tt E (set_drain_listeners 0 s) in (s2, [Emit EvDrain] ++ l2, r).
Proof.
  intros Hd. apply bind_ret, emit_drain_not_writable, destroyed_not_writable. exact Hd.
Qed.

Lemma _drain_eq fuel : _drain (S fuel) =
  (s <- get;;
   let '(item, rest) := shift (_extraBuffer s) in
   modify (set_extraBuffer rest);;
   status <- Write fuel false item;;
   if status then ret false else
   s <- get;;
   if Nat.eqb (length (_extraBuffer s)) 0 then
     modify (set_write_entry Engine);;
     modify (set_needDrain false);;
     emit_drain;;
     ret true
   else _drain fuel).
Proof. reflexivity. Qed.

(** On a destroyed writer, [_drain] shifts the whole queue through [Write],
    which writes nothing, then rebinds [this.write] and emits 'drain'. *)
Lemma drain_destroyed E fuel : forall s,
  _destroyed s = true -> (length (_extraBuffer s) <= fuel)%nat ->
  let '(s', l, r) := _drain (S (S fuel)) E s in
  _extraBuffer s' = [] /\ write_entry s' = Engine /\ _destroyed s' = true /\
  l = [Emit EvDrain] /\ r = Ret true.
Proof.
  induction fuel as [| fuel IH]; intros s Hd Hlen;
  rewrite _drain_eq, (bind_get _ E s);
  destruct (_extraBuffer s) as [| item rest] eqn:Hq; cbn [shift];
  rewrite bind_modify, bind_Write_destroyed by exact Hd;
  cbn iota beta; rewrite bind_get; cbn [set_extraBuffer _extraBuffer].
  - cbn [length Nat.eqb]. rewrite !bind_modify, bind_emit_drain_destroyed by exact Hd.
    repeat split; assumption || reflexivity.
  - simpl in Hlen. assert (rest = []) as -> by (destruct rest; [reflexivity | simpl in Hlen; lia]).
    cbn [length Nat.eqb]. rewrite !bind_modify, bind_emit_drain_destroyed by exact Hd.
    repeat split; assumption || reflexivity.
  - cbn [length Nat.eqb]. rewrite !bind_modify, bind_emit_drain_destroyed by exact Hd.
    repeat split; assumption || reflexivity.
  - destruct rest as [| item' rest].
    + cbn [length Nat.eqb]. rewrite !bind_modify, bind_emit_drain_destroyed by exact Hd.
      repeat split; assumption || reflexivity.
    + cbn [length Nat.eqb].
      pose proof (IH (set_extraBuffer (item' :: rest) s) Hd) as H.
      cbn [set_extraBuffer _extraBuffer] in H.
      destruct (_drain (S (S fuel)) E (set_extraBuffer (item' :: rest) s)) as [[s2 l2] r2].
      apply H. simpl in Hlen |- *. lia.
Qed.

Lemma destroy_writable_eq e E s :
  writable s = true ->
  destroy e E s =
  (let s1 := set_clock (S (clock s)) (set_watching false s) in
   let s2 := if is_active (S_WRITE_PROCESS s) && is_active (READ_PROCESS (reader E (clock s)))
             then set_S_WRITE_PROCESS
                    (match e with Some _ => FAILED_SIGN | None => FINISHED_SIGN end) s1
             else s1 in
   let s3 := match e with Some x => set_errored (Some x) s2 | None => s2 end in
   (set_closed true (set_destroyed true s3),
    match e with Some x => [Emit (EvError x); Emit EvClose] | None => [Emit EvClose] end,
    Ret tt)).
Proof.
  intros Hw. unfold destroy. rewrite bind_get, Hw. cbn [negb].
  rewrite bind_modify, bind_load, bind_get.
  cbn [_watching set_watching set_clock S_WRITE_PROCESS clock].
  destruct (is_active (S_WRITE_PROCESS s) && is_active (READ_PROCESS (reader E (clock s))));
    destruct e as [x |]; reflexivity.
Qed.

Lemma destroy_stub_state e E s :
  writable s = true ->
  let '(s1, _, _) := destroy e E s in
  _destroyed s1 = true /\ write_entry s1 = write_entry s /\ _extraBuffer s1 = _extraBuffer s.
Proof.
  intros Hw. rewrite (destroy_writable_eq e E s Hw). cbv zeta.
  destruct (is_active (S_WRITE_PROCESS s) && is_active (READ_PROCESS (reader E (clock s))));
    destruct e; repeat split.
Qed.
(** ** The claims *)

(** C1: on a 64-byte ring with POSTFIX_SIZE = 0, an empty ring and a
    reader at offset 0 of cycle 0, [writeSync("AB")] returns false, writes
    the little-endian length 2 into B[0..4], "AB" into B[4..6] and the
    NOT_FINAL byte 0 into B[6], publishes WRITE_INDEX = 7 and leaves
    WRITE_CYCLE at 0. *)
Theorem write_sync_AB fuel E B :
  POSTFIX_SIZE E = 0 -> length B = 64%nat ->
  READ_INDEX (reader E 0) = 0 -> READ_CYCLE (reader E 1) = 0 ->
  let '(s', l, r) := Write (S fuel) true (Some [65; 66]) E (writer_init B) in
  r = Ret false /\ l = [Frame [65; 66] 0] /\
  firstn 7 (_sharedBuffer s') = [2; 0; 0; 0; 65; 66; 0] /\
  S_WRITE_INDEX s' = 7 /\ S_WRITE_CYCLE s' = 0.
Proof.
  intros Hp HB Hr Hc.
  do 64 (destruct B as [| ? B]; [discriminate |]).
  destruct B; [| discriminate].
  destruct E as [pf rd nt]. cbn in Hp, Hr, Hc. subst pf.
  cbn [Write]. rewrite bind_get. cbn [writable negb andb _destroyed _ending writer_init].
  rewrite bind_load. cbn [reader clock writer_init]. rewrite Hr.
  rewrite bind_load. cbn [reader clock set_clock]. rewrite Hc.
  vm_compute. repeat split; reflexivity.
Qed.

Lemma write_sync_AB_witness :
  let '(s', l, r) := Write 1 true (Some [65; 66]) E_still (writer_init (repeat 0 64)) in
  r = Ret false /\ l = [Frame [65; 66] 0] /\
  firstn 7 (_sharedBuffer s') = [2; 0; 0; 0; 65; 66; 0] /\
  S_WRITE_INDEX s' = 7 /\ S_WRITE_CYCLE s' = 0.
Proof. apply (write_sync_AB 0 E_still (repeat 0 64)); reflexivity. Defined.

(** C2: the split law fails when a write arrives while a split payload
    waits in the overflow queue.  On the 32-byte ring of [ring_ops], the
    28-byte [p28] is split into two NOT_FINAL=1 frames, but the frame that
    follows them is the NOT_FINAL=0 frame of the later "Z", and the tail of
    [p28] comes after it in a frame of its own: read back, the frames give
    the first 17 bytes of [p28] followed by "Z", then the tail of [p28],
    and never [p28]. *)
Theorem split_law_interleaved :
  let tr := snd (session 20 E_ring ring0 ring_ops) in
  frames_of tr =
    [([65], 0); ([], 0); (firstn 16 p28, 1); ([nth 16 p28 0], 1); ([90], 0); (skipn 17 p28, 0)] /\
  messages (frames_of tr) [] = [[65]; []; firstn 17 p28 ++ [90]; skipn 17 p28] /\
  ~ In p28 (messages (frames_of tr) []).
Proof.
  intros tr. vm_compute. split; [reflexivity | split; [reflexivity |]].
  intros [H | [H | [H | [H | []]]]]; discriminate.
Qed.

(** C3: a wrap stores the cycle from before the increment into WRITE_CYCLE
    ([this._cycle++]): from offset 12 of a 16-byte ring with the reader
    caught up, [write([1])] wraps, the local cycle becomes 1 and WRITE_CYCLE
    is published as 0. *)
Theorem wrap_publishes_old_cycle :
  let '(s', l, r) := Write 3 false (Some [1]) E_caught_up wrap_state in
  r = Ret false /\ l = [Frame [1] 0] /\ _cycle s' = 1 /\ S_WRITE_CYCLE s' = 0.
Proof. vm_compute. repeat split; reflexivity. Qed.

(** C4: [_drain] shifts the head of the overflow queue and, when that write
    meets backpressure again, [FakeWrite] appends it at the tail: on the
    ring of [ring_ops], the queue [tail of p28; "Z"] becomes ["Z"; tail of
    p28] after the first wake-up, and "Z" reaches the ring before the tail
    of [p28]. *)
Theorem drain_requeues_at_tail :
  _extraBuffer (ring_after 4) = [Some (skipn 17 p28); Some [90]] /\
  _extraBuffer (ring_after 5) = [Some [90]; Some (skipn 17 p28)] /\
  frames_of (snd (session 20 E_ring ring0 ring_ops)) =
    [([65], 0); ([], 0); (firstn 16 p28, 1); ([nth 16 p28 0], 1); ([90], 0); (skipn 17 p28, 0)].
Proof. vm_compute. repeat split; reflexivity. Qed.

(** C5: if [writer.write(p)] returns true, every later call of
    [writer.write], whatever else happens in between, returns true until a
    'drain' event is emitted. *)
Theorem backpressure_law fuel fuel' p E s s1 l1 ops :
  public_write fuel p E s = (s1, l1, Ret true) ->
  true_until_drain (snd (session fuel' E s1 ops)).
Proof. intros H. apply session_Stub. exact (public_write_true_Stub fuel p E s s1 l1 H). Qed.

Lemma backpressure_law_witness :
  public_write 20 p28 E_ring (ring_after 2) =
    (ring_after 3, snd (fst (public_write 20 p28 E_ring (ring_after 2))), Ret true) /\
  true_until_drain (snd (session 20 E_ring (ring_after 3) (skipn 3 ring_ops))).
Proof.
  split; [vm_compute; reflexivity |].
  apply (backpressure_law 20 20 p28 E_ring (ring_after 2) (ring_after 3)
           (snd (fst (public_write 20 p28 E_ring (ring_after 2))))).
  vm_compute. reflexivity.
Defined.

(** C6 (counterexample): with the writer at offset 10 of cycle 0 and the
    reader at offset 4 of cycle 1, [write([1])] throws 'Read further than
    expected' to its caller; the writer is not destroyed, nothing is
    emitted, and its state is the one before the call. *)
Lemma fault_throws_to_caller :
  Write 3 false (Some [1]) E_ahead fault_state =
  (set_clock 2 fault_state, [], Throw E_read_further) /\ _destroyed fault_state = false.
Proof. vm_compute. split; reflexivity. Qed.

(** C6 (amended): on a writable writer, when the fault condition holds
    ((behind ? READ_INDEX : |B|) < write cursor, or READ_CYCLE > cycle),
    [Write] throws 'overwritten' (first condition) or 'Read further than
    expected' to its caller, without emitting anything and without changing
    the writer: in particular it is not destroyed. *)
Theorem write_fault_throws fuel sync p E s :
  writable s = true ->
  let read := READ_INDEX (reader E (clock s)) in
  let cycle := READ_CYCLE (reader E (S (clock s))) in
  let isBehind := (_write s <? read) || (cycle <? _cycle s) in
  let leftover := (if isBehind then read else Zlength (_sharedBuffer s)) - _write s in
  leftover < 0 \/ _cycle s < cycle ->
  Write (S fuel) sync p E s =
  (set_clock (S (S (clock s))) s, [],
   Throw (if leftover <? 0 then E_overwritten else E_read_further)).
Proof.
  intros Hw read cycle isBehind leftover Hf.
  cbn [Write]. rewrite (bind_get _ E s), Hw. cbn [negb].
  rewrite (bind_load _ _ E s), (bind_load _ _ E), (bind_ask _ E), (bind_get _ E).
  cbn [set_clock clock _write _cycle _sharedBuffer].
  fold read cycle isBehind leftover.
  destruct (leftover <? 0) eqn:Hl; [reflexivity |].
  apply Z.ltb_ge in Hl. destruct Hf as [Hf | Hf]; [lia |].
  apply Z.ltb_lt in Hf. rewrite Hf. reflexivity.
Qed.

Lemma write_fault_throws_witness :
  Write 3 false (Some [1]) E_ahead fault_state =
  (set_clock 2 fault_state, [], Throw E_read_further).
Proof.
  apply (write_fault_throws 2 false (Some [1]) E_ahead fault_state).
  - reflexivity.
  - right. vm_compute. reflexivity.
Defined.

(** C7: the spin loop of [end()] does not stop when READ_PROCESS becomes
    FINISHED: with a reader that is READY at the start and FINISHED from the
    first notify on, [end()] still performs FINISH_SPINS = 10 blocking waits,
    the last 9 of them timing out on FINISHED, before it publishes
    FINISHED and emits 'finish'. *)
Theorem end_spins_past_finished :
  let '(s', l, r) := end_ E_finish (writer_init (repeat 0 16)) in
  l = BlockedProcess READY_SIGN WOk
        :: repeat (BlockedProcess FINISHED_SIGN WTimedOut) 9 ++ [Emit EvFinish] /\
  r = Ret tt /\ _finished s' = true /\ _ended s' = true /\
  S_WRITE_PROCESS s' = FINISHED_SIGN.
Proof. vm_compute. repeat split; reflexivity. Qed.

(** C8: when READ_PROCESS is READY at the load of [synchronize()], the
    writer sets [ready] and emits 'ready' only: [_watching] is left as it
    was and no READ_PROCESS wait of [_watch] is registered, so the liveness
    watch does not start. *)
Theorem synchronize_ready_no_watch E s :
  READ_PROCESS (reader E (clock s)) = READY_SIGN ->
  let '(s', l, r) := synchronize E s in
  l = [Emit EvReady] /\ r = Ret tt /\ _ready s' = true /\
  _watching s' = _watching s /\ watch_waiters s' = watch_waiters s.
Proof.
  intros H. unfold synchronize. rewrite !bind_modify, bind_load.
  cbn [clock set_process set_S_WRITE_PROCESS]. rewrite H. cbn [sign_eqb].
  rewrite bind_modify. repeat split.
Qed.

Lemma synchronize_ready_no_watch_witness :
  let '(s', l, r) := synchronize E_still (writer_init (repeat 0 16)) in
  l = [Emit EvReady] /\ r = Ret tt /\ _ready s' = true /\
  _watching s' = false /\ watch_waiters s' = 0%nat.
Proof.
  apply (synchronize_ready_no_watch E_still (writer_init (repeat 0 16))). reflexivity.
Defined.

(** C9: [destroy(err)] while [end()] is in progress ([_ending] set) returns
    at once: no sign is published, no error is recorded, nothing is
    emitted, the writer is unchanged. *)
Theorem destroy_noop_while_ending e E s :
  _ending s = true -> destroy e E s = (s, [], Ret tt).
Proof.
  intros H. unfold destroy. rewrite (bind_get _ E s).
  unfold writable. rewrite H, andb_false_r. reflexivity.
Qed.

Lemma destroy_noop_while_ending_witness :
  destroy (Some READER_EXIT_WHILE_WATCH) E_still (set_ending true (writer_init [])) =
  (set_ending true (writer_init []), [], Ret tt).
Proof. apply destroy_noop_while_ending. reflexivity. Defined.

(** C10 (counterexample): write("A"), write(""), write(p28) (backpressure),
    destroy(), write([1]) returns true, but the wake-up of the pending wait
    then rebinds [writer.write] to the engine and emits 'drain', and the
    next write([2]) returns false; the queue is emptied without any of it
    reaching the ring. *)
Lemma destroyed_write_after_drain :
  let '(s, tr) := session 20 E_ring ring0 destroy_ops in
  firstn 4 (rev tr) =
    [TWrite (Ret false); TObs (Emit EvDrain); TWrite (Ret true); TObs (Emit EvClose)] /\
  _destroyed s = true /\ write_entry s = Engine /\ _extraBuffer s = [] /\
  frames_of tr = frames_of (snd (session 20 E_ring ring0 (firstn 3 destroy_ops))).
Proof. vm_compute. repeat split; reflexivity. Qed.

(** C10 (amended): once backpressure has bound [writer.write] to the
    buffering stub, [destroy()] leaves that binding in place: on the
    destroyed writer a write still appends its payload to the overflow
    queue and returns true. The wake-up of the pending READ_INDEX wait then
    runs [_drain], which empties the queue without writing any of it,
    rebinds [writer.write] to the engine and emits 'drain'; after that,
    write returns false. *)
Theorem destroyed_stub_until_drain fuel e p E s :
  writable s = true -> write_entry s = Stub -> (length (_extraBuffer s) <= fuel)%nat ->
  let '(s1, _, _) := destroy e E s in
  let s2 := set_extraBuffer (_extraBuffer s ++ [Some p]) s1 in
  _destroyed s1 = true /\ write_entry s1 = Stub /\
  public_write fuel p E s1 = (s2, [], Ret true) /\
  (let '(s3, l, r) := _drain (S (S (S fuel))) E s2 in
   _extraBuffer s3 = [] /\ write_entry s3 = Engine /\ l = [Emit EvDrain] /\ r = Ret true /\
   public_write (S fuel) p E s3 = (s3, [], Ret false)).
Proof.
  intros Hw Hs Hlen. pose proof (destroy_stub_state e E s Hw) as H.
  destruct (destroy e E s) as [[s1 l1] r1]. destruct H as (Hd & He & Hq).
  intros s2. rewrite He. split; [exact Hd |]. split; [exact Hs |]. split.
  - unfold public_write. rewrite (bind_get _ E s1), He, Hs. unfold s2. rewrite <- Hq. reflexivity.
  - assert (Hlen2 : (length (_extraBuffer s2) <= S fuel)%nat).
    { unfold s2. cbn [_extraBuffer set_extraBuffer]. rewrite length_app. cbn [length]. lia. }
    pose proof (drain_destroyed E (S fuel) s2 Hd Hlen2) as H.
    destruct (_drain (S (S (S fuel))) E s2) as [[s3 l] r].
    destruct H as (Hq3 & He3 & Hd3 & Hl & Hr). repeat split; try assumption.
    unfold public_write. rewrite (bind_get _ E s3), He3.
    apply Write_not_writable, destroyed_not_writable. exact Hd3.
Qed.

Lemma destroyed_stub_until_drain_witness :
  writable (fst (session 20 E_ring ring0 (firstn 3 destroy_ops))) = true /\
  write_entry (fst (session 20 E_ring ring0 (firstn 3 destroy_ops))) = Stub /\
  (length (_extraBuffer (fst (session 20 E_ring ring0 (firstn 3 destroy_ops)))) <= 2)%nat /\
  (let s := fst (session 20 E_ring ring0 (firstn 3 destroy_ops)) in
   let '(s1, _, _) := destroy None E_ring s in
   let s2 := set_extraBuffer (_extraBuffer s ++ [Some [1]]) s1 in
   _destroyed s1 = true /\ write_entry s1 = Stub /\
   public_write 2 [1] E_ring s1 = (s2, [], Ret true) /\
   (let '(s3, l, r) := _drain 5 E_ring s2 in
    _extraBuffer s3 = [] /\ write_entry s3 = Engine /\ l = [Emit EvDrain] /\ r = Ret true /\
    public_write 3 [1] E_ring s3 = (s3, [], Ret false))).
Proof.
  split; [vm_compute; reflexivity |]. split; [vm_compute; reflexivity |].
  split; [vm_compute; lia |].
  apply (destroyed_stub_until_drain 2 None [1] E_ring);
    [vm_compute; reflexivity | vm_compute; reflexivity | vm_compute; lia].
Defined.

(** * Further properties of the writer *)

Lemma length_splice B off bs :
  0 <= off -> off + Zlength bs <= Zlength B -> length (splice B off bs) = length B.
Proof.
  rewrite !Zlength_correct. intros H1 H2. unfold splice.
  rewrite !length_app, length_firstn, length_skipn. lia.
Qed.

Lemma Zlength_splice B off bs :
  0 <= off -> off + Zlength bs <= Zlength B -> Zlength (splice B off bs) = Zlength B.
Proof. intros H1 H2. rewrite !Zlength_correct, length_splice; auto. Qed.

Lemma nth_splice_in B off bs i x :
  0 <= off -> off + Zlength bs <= Zlength B ->
  (Z.to_nat off <= i < Z.to_nat off + length bs)%nat ->
  nth i (splice B off bs) x = nth (i - Z.to_nat off) bs x.
Proof.
  rewrite !Zlength_correct. intros H1 H2 H3. unfold splice.
  rewrite app_nth2; rewrite length_firstn; [| lia].
  replace (Nat.min (Z.to_nat off) (length B)) with (Z.to_nat off) by lia.
  rewrite app_nth1; [reflexivity | lia].
Qed.

Lemma nth_splice_out B off bs i x :
  0 <= off -> off + Zlength bs <= Zlength B ->
  (i < Z.to_nat off \/ Z.to_nat off + length bs <= i)%nat ->
  nth i (splice B off bs) x = nth i B x.
Proof.
  rewrite !Zlength_correct. intros H1 H2 [H3 | H3]; unfold splice.
  - rewrite app_nth1; [| rewrite length_firstn; lia].
    rewrite nth_firstn. replace (i <? Z.to_nat off)%nat with true; [reflexivity |].
    symmetry. apply Nat.ltb_lt. lia.
  - rewrite app_nth2; rewrite length_firstn; [| lia].
    rewrite app_nth2; [| lia]. rewrite nth_skipn. f_equal. lia.
Qed.

Lemma zsub_nth B i n bs x :
  0 <= i -> 0 <= n -> i + n <= Zlength B -> Zlength bs = n ->
  (forall k, (k < Z.to_nat n)%nat -> nth (Z.to_nat i + k) B x = nth k bs x) ->
  zsub B i n = bs.
Proof.
  rewrite !Zlength_correct. intros H1 H2 H3 H4 H. unfold zsub.
  apply (nth_ext _ _ x x).
  - rewrite length_firstn, length_skipn. lia.
  - intros k Hk. rewrite length_firstn, length_skipn in Hk.
    rewrite nth_firstn, nth_skipn. replace (k <? Z.to_nat n)%nat with true.
    + apply H. lia.
    + symmetry. apply Nat.ltb_lt. lia.
Qed.

Lemma le32_length v : Zlength (le32 v) = 4.
Proof. reflexivity. Qed.

(** The four bytes of [le32 v] read back as [v]. *)
Lemma le_value_le32 v : 0 <= v < 2 ^ 32 -> le_value (le32 v) = v.
Proof.
  intros Hv. unfold le_value, le32. cbn [map fold_right].
  change 255 with (Z.ones 8). rewrite !Z.land_ones by lia.
  rewrite !Z.shiftr_div_pow2 by lia.
  replace (2 ^ (8 * 0)) with 1 by reflexivity.
  replace (2 ^ (8 * 1)) with 256 by reflexivity.
  replace (2 ^ (8 * 2)) with (256 * 256) by reflexivity.
  replace (2 ^ (8 * 3)) with (256 * 256 * 256) by reflexivity.
  replace (2 ^ 32) with (256 * 256 * 256 * 256) in Hv by reflexivity.
  rewrite Z.div_1_r, <- !Z.div_div by lia.
  set (a := v / 256). set (b := a / 256). set (c := b / 256).
  assert (Hv0 := Z.div_mod v 256 ltac:(lia)). assert (Ha := Z.div_mod a 256 ltac:(lia)).
  assert (Hb := Z.div_mod b 256 ltac:(lia)).
  assert (Hc : 0 <= c < 256).
  { subst c b a. rewrite !Z.div_div by lia. split; [apply Z.div_pos; lia |].
    apply Z.div_lt_upper_bound; [lia|]. clear -Hv. lia. }
  rewrite (Z.mod_small c) by lia. fold a b c in Hv0, Ha, Hb. change (2 ^ 8) with 256. lia.
Qed.

Lemma Zlength_nonneg {A} (l : list A) : 0 <= Zlength l.
Proof. rewrite Zlength_correct. lia. Qed.

Lemma buffer_write_ok d off E s :
  0 <= off -> off + Zlength d <= Zlength (_sharedBuffer s) ->
  buffer_write d off E s =
  (set_sharedBuffer (splice (_sharedBuffer s) off d) s, [], Ret (Zlength d)).
Proof.
  intros H1 H2. unfold buffer_write. rewrite (bind_get _ E s).
  replace ((off <? 0) || (Zlength (_sharedBuffer s) <? off)) with false
    by (symmetry; apply orb_false_iff; split; apply Z.ltb_ge; pose proof (Zlength_nonneg d); lia).
  rewrite firstn_all2 by (rewrite Zlength_correct in H2; lia).
  apply bind_modify.
Qed.

Lemma writeInt32LE_ok v off E s :
  - 2 ^ 31 <= v <= 2 ^ 31 - 1 -> 0 <= off <= Zlength (_sharedBuffer s) - 4 ->
  writeInt32LE v off E s = (set_sharedBuffer (splice (_sharedBuffer s) off (le32 v)) s, [], Ret tt).
Proof.
  intros H1 H2. unfold writeInt32LE. rewrite (bind_get _ E s).
  replace ((v <? - 2 ^ 31) || (2 ^ 31 - 1 <? v)) with false
    by (symmetry; apply orb_false_iff; split; apply Z.ltb_ge; lia).
  replace ((off <? 0) || (Zlength (_sharedBuffer s) - 4 <? off)) with false
    by (symmetry; apply orb_false_iff; split; apply Z.ltb_ge; lia).
  reflexivity.
Qed.

Lemma writeUInt8_ok v off E s :
  0 <= v <= 255 -> 0 <= off <= Zlength (_sharedBuffer s) - 1 ->
  writeUInt8 v off E s = (set_sharedBuffer (splice (_sharedBuffer s) off [v]) s, [], Ret tt).
Proof.
  intros H1 H2. unfold writeUInt8. rewrite (bind_get _ E s).
  replace ((v <? 0) || (255 <? v)) with false
    by (symmetry; apply orb_false_iff; split; apply Z.ltb_ge; lia).
  replace ((off <? 0) || (Zlength (_sharedBuffer s) - 1 <? off)) with false
    by (symmetry; apply orb_false_iff; split; apply Z.ltb_ge; lia).
  reflexivity.
Qed.

Lemma _store_ok d nf E s :
  0 <= POSTFIX_SIZE E -> 0 <= _write s -> 0 <= nf <= 255 -> Zlength d <= 2 ^ 31 - 1 ->
  _write s + PREFIX_SIZE + Zlength d + POSTFIX_SIZE E + 1 <= Zlength (_sharedBuffer s) ->
  let W := _write s + PREFIX_SIZE + Zlength d + POSTFIX_SIZE E + 1 in
  _store d nf E s =
  (set_S_WRITE_INDEX W
     (set_write W (set_sharedBuffer (store_bytes (_sharedBuffer s) (_write s) (POSTFIX_SIZE E) d nf) s)),
   [Frame d nf], Ret tt).
Proof.
  intros HP Hw Hnf Hd Hfit W. unfold PREFIX_SIZE in *.
  pose proof (Zlength_nonneg d) as Hd0.
  unfold _store. rewrite (bind_ask _ E s), (bind_get _ E s).
  assert (H1 := buffer_write_ok d (_write s + PREFIX_SIZE) E s
                  ltac:(unfold PREFIX_SIZE; lia) ltac:(unfold PREFIX_SIZE; lia)).
  rewrite (bind_ret _ _ _ _ _ _ _ H1).
  set (B1 := splice (_sharedBuffer s) (_write s + PREFIX_SIZE) d) in *.
  assert (HB1 : Zlength B1 = Zlength (_sharedBuffer s))
    by (apply Zlength_splice; unfold PREFIX_SIZE; lia).
  assert (H2 := writeInt32LE_ok (Zlength d) (_write s) E (set_sharedBuffer B1 s)
                  ltac:(lia) ltac:(cbn [_sharedBuffer set_sharedBuffer]; lia)).
  rewrite (bind_ret _ _ _ _ _ _ _ H2).
  set (B2 := splice B1 (_write s) (le32 (Zlength d))) in *.
  assert (HB2 : Zlength B2 = Zlength (_sharedBuffer s))
    by (unfold B2; cbn [_sharedBuffer set_sharedBuffer]; rewrite Zlength_splice; rewrite ?le32_length; lia).
  assert (H3 := writeUInt8_ok nf (_write s + Zlength d + EXTRA_SPACE E) E
                  (set_sharedBuffer B2 (set_sharedBuffer B1 s))
                  Hnf ltac:(cbn [_sharedBuffer set_sharedBuffer]; unfold EXTRA_SPACE, PREFIX_SIZE; lia)).
  cbn [_sharedBuffer set_sharedBuffer _write] in H3 |- *.
  rewrite (bind_ret _ _ _ _ _ _ _ H3).
  rewrite bind_modify, bind_get, bind_modify. cbn -[Z.add splice EXTRA_SPACE].
  rewrite firstn_all2 by (rewrite Zlength_correct in Hd0 |- *; lia).
  subst B2 B1 W. unfold EXTRA_SPACE, store_bytes, PREFIX_SIZE. destruct s; reflexivity.
Qed.

Ltac splice_side L1 L2 :=
  change (Zlength [_]) with 1; change (length [_]) with 1%nat;
  change (length (le32 _)) with 4%nat; rewrite ?le32_length, ?L1, ?L2; lia.

Section StoreBytes.

Variables (B d : list Z) (w P nf : Z).
Hypotheses (HP : 0 <= P) (Hw : 0 <= w)
  (Hfit : w + PREFIX_SIZE + Zlength d + P + 1 <= Zlength B).


Lemma store_bytes_length : length (store_bytes B w P d nf) = length B.
Proof.
  pose proof (Zlength_nonneg d). unfold store_bytes, PREFIX_SIZE in *.
  assert (L1 : Zlength (splice B (w + 4) d) = Zlength B) by (apply Zlength_splice; lia).
  assert (L2 : Zlength (splice (splice B (w + 4) d) w (le32 (Zlength d))) = Zlength B)
    by (rewrite Zlength_splice; rewrite ?le32_length; lia).
  rewrite length_splice; [| lia | change (Zlength [nf]) with 1; lia].
  rewrite length_splice; [| lia | rewrite le32_length; lia].
  apply length_splice; lia.
Qed.

Lemma store_bytes_nth i :
  nth i (store_bytes B w P d nf) 0 =
  if (Z.of_nat i <? w) then nth i B 0
  else if (Z.of_nat i <? w + PREFIX_SIZE) then nth (i - Z.to_nat w) (le32 (Zlength d)) 0
  else if (Z.of_nat i <? w + PREFIX_SIZE + Zlength d) then nth (i - Z.to_nat (w + PREFIX_SIZE)) d 0
  else if (Z.of_nat i =? w + PREFIX_SIZE + Zlength d + P) then nf
  else nth i B 0.
Proof.
  pose proof (Zlength_nonneg d) as Hn.
  assert (Hl : Z.of_nat (length d) = Zlength d) by (rewrite Zlength_correct; reflexivity).
  unfold store_bytes, PREFIX_SIZE in *.
  assert (L1 : Zlength (splice B (w + 4) d) = Zlength B) by (apply Zlength_splice; lia).
  assert (L2 : Zlength (splice (splice B (w + 4) d) w (le32 (Zlength d))) = Zlength B)
    by (rewrite Zlength_splice; rewrite ?le32_length; lia).
  destruct (Z.of_nat i =? w + 4 + Zlength d + P) eqn:Hnf.
  { apply Z.eqb_eq in Hnf.
    replace (Z.of_nat i <? w) with false by (symmetry; apply Z.ltb_ge; lia).
    replace (Z.of_nat i <? w + 4) with false by (symmetry; apply Z.ltb_ge; lia).
    replace (Z.of_nat i <? w + 4 + Zlength d) with false by (symmetry; apply Z.ltb_ge; lia).
    rewrite nth_splice_in by splice_side L1 L2.
    replace (i - Z.to_nat (w + Zlength d + (4 + P)))%nat with 0%nat by lia. reflexivity. }
  rewrite nth_splice_out by splice_side L1 L2.
  destruct (Z.of_nat i <? w) eqn:H1; [apply Z.ltb_lt in H1 | apply Z.ltb_ge in H1].
  { rewrite nth_splice_out by splice_side L1 L2. apply nth_splice_out; lia. }
  destruct (Z.of_nat i <? w + 4) eqn:H2; [apply Z.ltb_lt in H2 | apply Z.ltb_ge in H2].
  { apply nth_splice_in; splice_side L1 L2. }
  rewrite nth_splice_out by splice_side L1 L2.
  destruct (Z.of_nat i <? w + 4 + Zlength d) eqn:H3; [apply Z.ltb_lt in H3 | apply Z.ltb_ge in H3].
  { apply nth_splice_in; lia. }
  apply nth_splice_out; lia.
Qed.

End StoreBytes.

(** X1: when the frame fits in the ring, [_store(data, isNotFin)] writes
    the length n of [data] as a little-endian 32-bit prefix at [_write], the
    n bytes of [data] after it and the NOT_FINAL byte at
    [_write + PREFIX_SIZE + n + POSTFIX_SIZE]; every other byte (the
    POSTFIX_SIZE bytes between data and NOT_FINAL included) and the ring size
    are unchanged; [_write] moves one past the NOT_FINAL byte and that value
    is published as WRITE_INDEX, with one frame observed. *)
Theorem store_frame_layout d nf E s :
  0 <= POSTFIX_SIZE E -> 0 <= _write s -> 0 <= nf <= 255 -> Zlength d <= 2 ^ 31 - 1 ->
  _write s + PREFIX_SIZE + Zlength d + POSTFIX_SIZE E + 1 <= Zlength (_sharedBuffer s) ->
  let w := _write s in
  let n := Zlength d in
  let P := POSTFIX_SIZE E in
  let '(s', l, r) := _store d nf E s in
  r = Ret tt /\ l = [Frame d nf] /\
  le_value (zsub (_sharedBuffer s') w PREFIX_SIZE) = n /\
  zsub (_sharedBuffer s') (w + PREFIX_SIZE) n = d /\
  nth (Z.to_nat (w + PREFIX_SIZE + n + P)) (_sharedBuffer s') 0 = nf /\
  (forall i : nat,
     Z.of_nat i < w \/ w + PREFIX_SIZE + n <= Z.of_nat i < w + PREFIX_SIZE + n + P \/
     w + PREFIX_SIZE + n + P < Z.of_nat i ->
     nth i (_sharedBuffer s') 0 = nth i (_sharedBuffer s) 0) /\
  length (_sharedBuffer s') = length (_sharedBuffer s) /\
  _write s' = w + PREFIX_SIZE + n + P + 1 /\ S_WRITE_INDEX s' = _write s'.
Proof.
  intros HP Hw Hnf Hd Hfit w n P.
  rewrite _store_ok by assumption. cbn [_sharedBuffer _write S_WRITE_INDEX set_S_WRITE_INDEX set_write set_sharedBuffer].
  pose proof (Zlength_nonneg d) as Hn.
  pose proof (store_bytes_nth (_sharedBuffer s) d w P nf HP Hw Hfit) as Hnth.
  assert (HL := store_bytes_length (_sharedBuffer s) d w P nf HP Hw Hfit).
  assert (HZ : Zlength (store_bytes (_sharedBuffer s) w P d nf) = Zlength (_sharedBuffer s))
    by (rewrite !Zlength_correct, HL; reflexivity).
  fold w P. unfold PREFIX_SIZE in *. subst n.
  split; [reflexivity |]. split; [reflexivity |].
  split; [| split; [| split; [| split; [| split; [exact HL | split; reflexivity]]]]].
  - rewrite (zsub_nth _ w 4 (le32 (Zlength d)) 0); [apply le_value_le32; lia | lia | lia | lia | reflexivity |].
    intros k Hk. rewrite Hnth. change (Z.to_nat 4) with 4%nat in Hk.
    replace (Z.of_nat (Z.to_nat w + k) <? w) with false by (symmetry; apply Z.ltb_ge; lia).
    replace (Z.of_nat (Z.to_nat w + k) <? w + 4) with true by (symmetry; apply Z.ltb_lt; lia).
    f_equal. lia.
  - apply (zsub_nth _ _ _ _ 0); try lia.
    intros k Hk. rewrite Hnth.
    replace (Z.of_nat (Z.to_nat (w + 4) + k) <? w) with false by (symmetry; apply Z.ltb_ge; lia).
    replace (Z.of_nat (Z.to_nat (w + 4) + k) <? w + 4) with false by (symmetry; apply Z.ltb_ge; lia).
    replace (Z.of_nat (Z.to_nat (w + 4) + k) <? w + 4 + Zlength d) with true
      by (symmetry; apply Z.ltb_lt; lia).
    f_equal. lia.
  - rewrite Hnth.
    replace (Z.of_nat (Z.to_nat (w + 4 + Zlength d + P)) <? w) with false by (symmetry; apply Z.ltb_ge; lia).
    replace (Z.of_nat (Z.to_nat (w + 4 + Zlength d + P)) <? w + 4) with false by (symmetry; apply Z.ltb_ge; lia).
    replace (Z.of_nat (Z.to_nat (w + 4 + Zlength d + P)) <? w + 4 + Zlength d) with false
      by (symmetry; apply Z.ltb_ge; lia).
    replace (Z.of_nat (Z.to_nat (w + 4 + Zlength d + P)) =? w + 4 + Zlength d + P) with true
      by (symmetry; apply Z.eqb_eq; lia).
    reflexivity.
  - intros i Hi. rewrite Hnth.
    destruct (Z.of_nat i <? w) eqn:H1; [reflexivity |]. apply Z.ltb_ge in H1.
    replace (Z.of_nat i <? w + 4) with false by (symmetry; apply Z.ltb_ge; lia).
    replace (Z.of_nat i <? w + 4 + Zlength d) with false by (symmetry; apply Z.ltb_ge; lia).
    replace (Z.of_nat i =? w + 4 + Zlength d + P) with false by (symmetry; apply Z.eqb_neq; lia).
    reflexivity.
Qed.

Lemma store_frame_layout_witness :
  let s := writer_init (repeat 0 16) in
  let w := _write s in
  let n := Zlength [65; 66] in
  let P := POSTFIX_SIZE E_still in
  let '(s', l, r) := _store [65; 66] 1 E_still s in
  r = Ret tt /\ l = [Frame [65; 66] 1] /\
  le_value (zsub (_sharedBuffer s') w PREFIX_SIZE) = n /\
  zsub (_sharedBuffer s') (w + PREFIX_SIZE) n = [65; 66] /\
  nth (Z.to_nat (w + PREFIX_SIZE + n + P)) (_sharedBuffer s') 0 = 1 /\
  (forall i : nat,
     Z.of_nat i < w \/ w + PREFIX_SIZE + n <= Z.of_nat i < w + PREFIX_SIZE + n + P \/
     w + PREFIX_SIZE + n + P < Z.of_nat i ->
     nth i (_sharedBuffer s') 0 = nth i (_sharedBuffer s) 0) /\
  length (_sharedBuffer s') = length (_sharedBuffer s) /\
  _write s' = w + PREFIX_SIZE + n + P + 1 /\ S_WRITE_INDEX s' = _write s'.
Proof.
  exact (store_frame_layout [65; 66] 1 E_still (writer_init (repeat 0 16))
           ltac:(vm_compute; congruence) ltac:(vm_compute; congruence) ltac:(split; vm_compute; congruence)
           ltac:(vm_compute; congruence) ltac:(vm_compute; congruence)).
Defined.

(** ** The write cursor stays in the ring *)

Lemma cursor_ok_clock n m s : cursor_ok n s -> cursor_ok n (set_clock m s).
Proof. simpl. auto. Qed.
#[export] Hint Resolve cursor_ok_clock : pres.

Lemma buffer_write_cursor n d off : preserves (cursor_ok n) (buffer_write d off).
Proof.
  intros E s [Hl Hw]. unfold buffer_write. rewrite bind_get.
  destruct ((off <? 0) || (Zlength (_sharedBuffer s) <? off)) eqn:Hc; [simpl; auto |].
  apply orb_false_iff in Hc as [H1 H2]. apply Z.ltb_ge in H1, H2.
  rewrite bind_modify. simpl. split; [| exact Hw].
  rewrite <- Hl. apply length_splice; [exact H1 |].
  rewrite Zlength_correct in *. rewrite Zlength_correct, length_firstn. lia.
Qed.

Lemma writeInt32LE_cursor n v off : preserves (cursor_ok n) (writeInt32LE v off).
Proof.
  intros E s [Hl Hw]. unfold writeInt32LE. rewrite bind_get.
  destruct ((v <? - 2 ^ 31) || (2 ^ 31 - 1 <? v)); [simpl; auto |].
  destruct ((off <? 0) || (Zlength (_sharedBuffer s) - 4 <? off)) eqn:Hc; [simpl; auto |].
  apply orb_false_iff in Hc as [H1 H2]. apply Z.ltb_ge in H1, H2.
  simpl. split; [| exact Hw]. rewrite <- Hl. apply length_splice; [exact H1 |].
  rewrite le32_length. lia.
Qed.

(** [writeUInt8] returns only when its offset lies in the buffer. *)
Lemma writeUInt8_ret v off E s s' l u :
  writeUInt8 v off E s = (s', l, Ret u) ->
  0 <= off <= Zlength (_sharedBuffer s) - 1 /\
  length (_sharedBuffer s') = length (_sharedBuffer s) /\ _write s' = _write s.
Proof.
  unfold writeUInt8. rewrite bind_get.
  destruct ((v <? 0) || (255 <? v)); [discriminate |].
  destruct ((off <? 0) || (Zlength (_sharedBuffer s) - 1 <? off)) eqn:Hc; [discriminate |].
  apply orb_false_iff in Hc as [H1 H2]. apply Z.ltb_ge in H1, H2.
  intros H. injection H as <- _ _. split; [lia |]. split; [| reflexivity].
  apply length_splice; [exact H1 |]. change (Zlength [v]) with 1. lia.
Qed.

Lemma writeUInt8_cursor n v off : preserves (cursor_ok n) (writeUInt8 v off).
Proof.
  intros E s [Hl Hw]. unfold writeUInt8. rewrite bind_get.
  destruct ((v <? 0) || (255 <? v)); [simpl; auto |].
  destruct ((off <? 0) || (Zlength (_sharedBuffer s) - 1 <? off)) eqn:Hc; [simpl; auto |].
  apply orb_false_iff in Hc as [H1 H2]. apply Z.ltb_ge in H1, H2.
  simpl. split; [| exact Hw]. rewrite <- Hl. apply length_splice; [exact H1 |].
  change (Zlength [v]) with 1. lia.
Qed.

Lemma st_of_bind {A B} (m : M A) (k : A -> M B) E s :
  st_of (bind m k E s) =
  match m E s with (s1, _, Ret a) => st_of (k a E s1) | (s1, _, _) => s1 end.
Proof.
  unfold bind. destruct (m E s) as [[s1 l1] [a | e |]]; try reflexivity.
  destruct (k a E s1) as [[? ?] ?]; reflexivity.
Qed.

Lemma write_is_clock w m s : write_is w s -> write_is w (set_clock m s).
Proof. simpl. auto. Qed.
#[export] Hint Resolve write_is_clock : pres.

Lemma buffer_write_write_is w d off : preserves (write_is w) (buffer_write d off).
Proof. unfold buffer_write. pres. Qed.

Lemma writeInt32LE_write_is w v off : preserves (write_is w) (writeInt32LE v off).
Proof. unfold writeInt32LE. pres. Qed.

(** [_store] moves the cursor one past the NOT_FINAL byte it has just
    written, so the cursor stays in the ring. *)
Lemma _store_cursor n d nf : preserves (cursor_ok n) (_store d nf).
Proof.
  intros E s Hs. unfold _store. rewrite bind_ask, bind_get, st_of_bind.
  pose proof (buffer_write_cursor n d (_write s + PREFIX_SIZE) E s Hs) as H1.
  pose proof (buffer_write_write_is (_write s) d (_write s + PREFIX_SIZE) E s eq_refl) as W1.
  destruct (buffer_write d (_write s + PREFIX_SIZE) E s) as [[s1 l1] [k | e |]]; [| exact H1 ..].
  simpl in H1, W1. rewrite st_of_bind.
  pose proof (writeInt32LE_cursor n k (_write s) E s1 H1) as H2.
  pose proof (writeInt32LE_write_is (_write s) k (_write s) E s1 W1) as W2.
  destruct (writeInt32LE k (_write s) E s1) as [[s2 l2] [u | e |]]; [| exact H2 ..].
  simpl in H2, W2. rewrite st_of_bind.
  pose proof (writeUInt8_cursor n nf (_write s + k + EXTRA_SPACE E) E s2 H2) as H3.
  destruct (writeUInt8 nf (_write s + k + EXTRA_SPACE E) E s2) as [[s3 l3] [u' | e |]] eqn:Hw3;
    [| exact H3 ..].
  apply writeUInt8_ret in Hw3 as (Hoff & Hl3 & W3).
  rewrite bind_modify, bind_get, bind_modify. simpl.
  destruct H2 as [Hl2 _]. rewrite Zlength_correct, Hl2 in Hoff.
  unfold EXTRA_SPACE, PREFIX_SIZE in *. split; [congruence | lia].
Qed.
#[export] Hint Resolve _store_cursor : pres.

Ltac pres_cursor := pres; try (simpl in *; intuition lia).

Lemma FakeWrite_cursor n d : preserves (cursor_ok n) (FakeWrite d).
Proof. unfold FakeWrite. pres_cursor. Qed.

Lemma spin_read_cursor n k read spins : preserves (cursor_ok n) (spin_read k read spins).
Proof. revert spins; induction k; intros; simpl; pres_cursor. Qed.
#[export] Hint Resolve FakeWrite_cursor spin_read_cursor : pres.

Lemma Write_cursor n fuel sync t : preserves (cursor_ok n) (Write fuel sync t).
Proof. revert sync t; induction fuel; intros; simpl; pres_cursor. Qed.
#[export] Hint Resolve Write_cursor : pres.

Lemma destroy_cursor n e : preserves (cursor_ok n) (destroy e).
Proof. unfold destroy. pres_cursor. Qed.
#[export] Hint Resolve destroy_cursor : pres.

Lemma end_spin_cursor n k spins st : preserves (cursor_ok n) (end_spin k spins st).
Proof. revert spins st; induction k; intros; simpl; pres_cursor. Qed.
#[export] Hint Resolve end_spin_cursor : pres.

Lemma end_cursor n : preserves (cursor_ok n) end_.
Proof. unfold end_. pres_cursor. Qed.
#[export] Hint Resolve end_cursor : pres.

Lemma run_end_cursor n k : preserves (cursor_ok n) (run_end k).
Proof. induction k; simpl; pres_cursor. Qed.
#[export] Hint Resolve run_end_cursor : pres.

Lemma emit_drain_cursor n : preserves (cursor_ok n) emit_drain.
Proof. unfold emit_drain. pres_cursor. Qed.
#[export] Hint Resolve emit_drain_cursor : pres.

Lemma _drain_cursor n fuel : preserves (cursor_ok n) (_drain fuel).
Proof. induction fuel; simpl; pres_cursor. Qed.

Lemma _watch_cursor n fuel : preserves (cursor_ok n) (_watch fuel).
Proof. induction fuel; simpl; pres_cursor. Qed.
#[export] Hint Resolve _watch_cursor : pres.

Lemma synchronize_cursor n : preserves (cursor_ok n) synchronize.
Proof. unfold synchronize. pres_cursor. Qed.

Lemma synchronize_settled_cursor n fuel v : preserves (cursor_ok n) (synchronize_settled fuel v).
Proof. unfold synchronize_settled. pres_cursor. Qed.

Lemma public_write_cursor n fuel p : preserves (cursor_ok n) (public_write fuel p).
Proof. unfold public_write. pres_cursor. Qed.

Lemma run_unit_pres (P : writer -> Prop) {A} (m : M A) E s :
  preserves P m -> P s -> P (fst (run_unit m E s)).
Proof.
  intros Hm Hs. unfold run_unit. specialize (Hm E s Hs).
  destruct (m E s) as [[s1 l1] r1]. exact Hm.
Qed.

(** X2: from a writer whose cursor lies in its ring, any sequence of calls
    and wake-ups, against any reader, keeps the ring size and leaves the
    cursor in [0, ring size]: [_store] moves the cursor only after
    [writeUInt8] has checked that the NOT_FINAL byte lies in the ring. *)
Theorem session_cursor_in_ring fuel E ops s :
  cursor_ok (length (_sharedBuffer s)) s ->
  let s' := fst (session fuel E s ops) in
  length (_sharedBuffer s') = length (_sharedBuffer s) /\
  0 <= _write s' <= Zlength (_sharedBuffer s').
Proof.
  intros Hs. set (n := length (_sharedBuffer s)) in *. cbv zeta.
  enough (H : cursor_ok n (fst (session fuel E s ops))).
  { destruct H as [H1 H2]. rewrite Zlength_correct, H1. auto. }
  clearbody n. revert s Hs. induction ops as [| o ops IH]; intros s Hs; [exact Hs |].
  simpl. assert (H1 : cursor_ok n (fst (session_step fuel E s o))).
  { destruct o; simpl session_step.
    - pose proof (public_write_cursor n fuel p E s Hs) as H.
      destruct (public_write fuel p E s) as [[? ?] ?]. exact H.
    - pose proof (Write_cursor n fuel true (Some p) E s Hs) as H.
      destruct (Write fuel true (Some p) E s) as [[? ?] ?]. exact H.
    - apply run_unit_pres; auto using destroy_cursor.
    - apply run_unit_pres; auto using end_cursor.
    - apply run_unit_pres; auto using synchronize_cursor.
    - destruct (drain_waiters s); [exact Hs |]. apply run_unit_pres; auto using _drain_cursor.
    - destruct (watch_waiters s); [exact Hs |]. apply run_unit_pres; auto using _watch_cursor.
    - destruct (sync_waiter s); [| exact Hs]. apply run_unit_pres; auto using synchronize_settled_cursor. }
  destruct (session_step fuel E s o) as [s1 t1]. specialize (IH s1 H1).
  destruct (session fuel E s1 ops) as [s2 t2]. exact IH.
Qed.

Lemma session_cursor_in_ring_witness :
  let s' := fst (session 20 E_ring ring0 ring_ops) in
  length (_sharedBuffer s') = length (_sharedBuffer ring0) /\
  0 <= _write s' <= Zlength (_sharedBuffer s').
Proof. apply (session_cursor_in_ring 20 E_ring ring_ops ring0). simpl. lia. Defined.

(** X3: on a writer that is not writable and whose [write] is the engine,
    [write], [writeSync], [end] and [destroy] change nothing and emit
    nothing, and every write returns false. *)
Theorem closed_writer_inert fuel E ops s :
  writable s = false -> write_entry s = Engine -> forallb guarded_op ops = true ->
  session (S fuel) E s ops = (s, flat_map inert_trace ops).
Proof.
  intros Hw He Hops. induction ops as [| o ops IH]; [reflexivity |].
  simpl in Hops. apply andb_true_iff in Hops as [Ho Hops].
  cbn [session]. destruct o; try discriminate Ho; cbn [session_step].
  - unfold public_write. rewrite bind_get, He. rewrite (Write_not_writable fuel false (Some p) E s Hw).
    rewrite IH by exact Hops. reflexivity.
  - rewrite Write_not_writable by exact Hw. rewrite IH by exact Hops. reflexivity.
  - unfold run_unit, destroy. rewrite bind_get, Hw. simpl. rewrite IH by exact Hops. reflexivity.
  - unfold run_unit. rewrite end_not_writable by exact Hw. simpl. rewrite IH by exact Hops. reflexivity.
Qed.

Lemma closed_writer_inert_witness :
  session 5 E_still (set_destroyed true ring0) [OpWrite [1]; OpEnd; OpWriteSync [2]; OpDestroy None] =
  (set_destroyed true ring0,
   flat_map inert_trace [OpWrite [1]; OpEnd; OpWriteSync [2]; OpDestroy None]).
Proof. apply closed_writer_inert; reflexivity. Defined.

(** X4: [destroy(err)] on a writable writer stops the watch, records and
    emits the error if there is one, emits 'close', and leaves the writer
    destroyed and closed; it publishes FAILED (with an error) or FINISHED
    (without) as WRITE_PROCESS only when both WRITE_PROCESS and the
    READ_PROCESS it loads are READY or EMPTY; ring, cursor, [writableEnded]
    and the binding of [write] are unchanged; a second [destroy] does
    nothing. *)
Theorem destroy_effect e E s :
  writable s = true ->
  let readStatus := READ_PROCESS (reader E (clock s)) in
  let '(s', l, r) := destroy e E s in
  r = Ret tt /\
  l = match e with Some x => [Emit (EvError x); Emit EvClose] | None => [Emit EvClose] end /\
  writable s' = false /\ closed s' = true /\ _watching s' = false /\
  writableErrored s' = match e with Some _ => true | None => writableErrored s end /\
  S_WRITE_PROCESS s' =
    (if is_active (S_WRITE_PROCESS s) && is_active readStatus
     then match e with Some _ => FAILED_SIGN | None => FINISHED_SIGN end
     else S_WRITE_PROCESS s) /\
  _sharedBuffer s' = _sharedBuffer s /\ _write s' = _write s /\
  writableEnded s' = writableEnded s /\ write_entry s' = write_entry s /\
  (forall e', destroy e' E s' = (s', [], Ret tt)).
Proof.
  intros Hw readStatus. subst readStatus. unfold destroy at 1.
  rewrite bind_get, Hw. cbn [negb].
  rewrite bind_modify, bind_load, bind_get.
  cbn [_watching set_watching set_clock S_WRITE_PROCESS clock].
  destruct (is_active (S_WRITE_PROCESS s) && is_active (READ_PROCESS (reader E (clock s))));
    destruct e as [x |]; cbn; repeat split; try reflexivity;
    intros e'; unfold destroy; rewrite bind_get; reflexivity.
Qed.

Lemma destroy_effect_witness :
  let '(s', l, r) := destroy (Some TOO_LONG_READING) E_still ring0 in
  r = Ret tt /\
  l = [Emit (EvError TOO_LONG_READING); Emit EvClose] /\
  writable s' = false /\ closed s' = true /\ _watching s' = false /\
  writableErrored s' = true /\
  S_WRITE_PROCESS s' =
    (if is_active (S_WRITE_PROCESS ring0) && is_active (READ_PROCESS (reader E_still (clock ring0)))
     then FAILED_SIGN else S_WRITE_PROCESS ring0) /\
  _sharedBuffer s' = _sharedBuffer ring0 /\ _write s' = _write ring0 /\
  writableEnded s' = writableEnded ring0 /\ write_entry s' = write_entry ring0 /\
  (forall e', destroy e' E_still s' = (s', [], Ret tt)).
Proof. exact (destroy_effect (Some TOO_LONG_READING) E_still ring0 eq_refl). Defined.

(** ** [end()] *)

Lemma filter_forallb {A} (f : A -> bool) l : forallb f l = true -> filter f l = l.
Proof.
  induction l as [| x l IH]; [reflexivity |]. simpl. intros H.
  apply andb_true_iff in H as [-> H]. rewrite IH by exact H. reflexivity.
Qed.

Lemma bind_pure {A B} (a : A) (k : A -> M B) E s : bind (ret a) k E s = k a E s.
Proof. apply triple_eta. Qed.

Lemma set_clock_set_clock a b s : set_clock a (set_clock b s) = set_clock a s.
Proof. destruct s; reflexivity. Qed.

Lemma end_spin_eq k spins st : end_spin (S k) spins st =
  if negb (sign_eqb st FAILED_SIGN) || negb (sign_eqb st FINISHED_SIGN) then
    wait_process st;;
    status' <- load READ_PROCESS;;
    if spins + 1 =? FINISH_SPINS then ret status'
    else end_spin k (spins + 1) status'
  else ret st.
Proof. reflexivity. Qed.

Lemma end_spin_runs k : forall spins st E s,
  spins + Z.of_nat (S k) = FINISH_SPINS ->
  exists l, end_spin (S k) spins st E s =
    (set_clock (2 * S k + clock s) s, l, Ret (READ_PROCESS (reader E (2 * k + 1 + clock s)))) /\
    length l = S k /\ forallb is_blocked_process l = true.
Proof.
  induction k as [| k IH]; intros spins st E s Hk.
  - cbn [end_spin]. replace (negb (sign_eqb st FAILED_SIGN) || negb (sign_eqb st FINISHED_SIGN))
      with true by (destruct st; reflexivity).
    unfold FINISH_SPINS in Hk. replace (spins + 1 =? FINISH_SPINS) with true
      by (symmetry; apply Z.eqb_eq; unfold FINISH_SPINS; lia).
    eexists. split; [unfold bind, wait_process, load, ret; cbn; destruct s; reflexivity | split; reflexivity].
  - rewrite end_spin_eq. replace (negb (sign_eqb st FAILED_SIGN) || negb (sign_eqb st FINISHED_SIGN))
      with true by (destruct st; reflexivity).
    replace (spins + 1 =? FINISH_SPINS) with false
      by (symmetry; apply Z.eqb_neq; unfold FINISH_SPINS in *; lia).
    rewrite (bind_ret _ _ E s _ _ _ eq_refl). cbv beta. rewrite bind_load. cbv beta iota.
    match goal with |- context [end_spin (S k) ?sp ?st' E ?s1] =>
      destruct (IH sp st' E s1) as (l & Heq & Hl & Hb); [lia | rewrite Heq] end.
    eexists. split; [| split].
    + cbn [clock set_clock]. rewrite !set_clock_set_clock.
      replace (2 * S (S k) + clock s)%nat with (2 * S k + S (S (clock s)))%nat by lia.
      replace (2 * S k + 1 + clock s)%nat with (2 * k + 1 + S (S (clock s)))%nat by lia.
      reflexivity.
    + cbn. rewrite Hl. reflexivity.
    + exact Hb.
Qed.

(** [destroy] on a writable writer, step by step. *)
Lemma end_run E s :
  writable s = true ->
  let origin := READ_PROCESS (reader E (clock s)) in
  let final := READ_PROCESS (reader E (20 + clock s)) in
  let '(s', l, r) := end_ E s in
  r = Ret tt /\ length (filter is_blocked_process l) = 10%nat /\
  writable s' = false /\
  if sign_eqb final FAILED_SIGN || sign_eqb final origin then
    skipn 10 l = [Emit (EvError (if sign_eqb final origin then FAILED_TO_FINISH_TIMEOUT
                                 else FAILED_TO_FINISH_READER)); Emit EvClose] /\
    writableErrored s' = true /\ writableFinished s' = writableFinished s /\
    writableEnded s' = false /\ closed s' = true
  else
    skipn 10 l = [Emit EvFinish] /\
    writableFinished s' = true /\ writableEnded s' = true /\ writableErrored s' = writableErrored s /\
    S_WRITE_PROCESS s' = FINISHED_SIGN /\ closed s' = closed s.
Proof.
  intros Hw origin final.
  assert (Hd : _destroyed s = false) by (unfold writable in Hw; destruct (_destroyed s); [discriminate | reflexivity]).
  unfold end_. rewrite bind_get, Hw. cbn [negb].
  rewrite !bind_modify, bind_load. cbn [clock set_ending set_watching set_process].
  set (s1 := set_clock (S (clock s)) (set_ending true (set_watching false (set_process FINISHING_SIGN s)))).
  fold origin.
  assert (Hk : 0 + Z.of_nat (S 9) = FINISH_SPINS) by reflexivity.
  assert (Hfin : forall s0, clock s0 = S (clock s) ->
            READ_PROCESS (reader E (2 * 9 + 1 + clock s0)) = final)
    by (intros s0 H0; rewrite H0; unfold final; f_equal; f_equal; lia).
  destruct (sign_eqb origin READY_SIGN || sign_eqb origin EMPTY_SIGN || sign_eqb origin FINISHING_SIGN);
  [rewrite bind_modify | rewrite bind_pure];
  [ set (s2 := set_S_WRITE_PROCESS FINISHING_SIGN s1) | set (s2 := s1) ];
  (destruct (end_spin_runs 9 0 origin E s2 Hk) as (l & Heq & Hl & Hb);
   change (Z.to_nat FINISH_SPINS) with (S 9); rewrite (bind_ret _ _ E s2 _ _ _ Heq);
   rewrite (Hfin s2 eq_refl); clear Heq;
   assert (Hf : length (filter is_blocked_process l) = 10%nat)
     by (rewrite <- Hl, filter_forallb by exact Hb; reflexivity);
   destruct (sign_eqb final FAILED_SIGN || sign_eqb final origin) eqn:Hc;
   [ rewrite bind_modify;
     destruct (sign_eqb final origin);
     (rewrite destroy_writable_eq by (unfold writable, s2, s1; cbn; rewrite Hd; reflexivity))
   | rewrite !bind_modify ]).
  all: cbn [emit observe]; cbn beta iota zeta.
  all: rewrite ?filter_app, ?length_app, ?Hf, ?skipn_app, ?Hl; cbn -[filter skipn].
  all: repeat split; try reflexivity.
  all: try (rewrite (skipn_all2 l) by lia; reflexivity).
  all: try (unfold writable, s2, s1; cbn; reflexivity).
  all: try (match goal with |- context [if ?b then _ else _] => destruct b end; reflexivity).
  all: unfold writable, s2, s1; cbn; rewrite Hd; reflexivity.
Qed.

(** X5: [end()] on a writable writer always makes ten blocking waits on
    READ_PROCESS; the outcome depends only on the status loaded after the
    tenth wait: FAILED or the status first loaded ([origin]) destroys the
    writer with FAILED_TO_FINISH_TIMEOUT (status = origin) or
    FAILED_TO_FINISH_READER; any other status publishes FINISHED, sets
    [writableFinished] and emits 'finish'.  Either way the writer is no
    longer writable. *)
Theorem end_outcome E s :
  writable s = true ->
  let origin := READ_PROCESS (reader E (clock s)) in
  let final := READ_PROCESS (reader E (20 + clock s)) in
  let '(s', l, r) := end_ E s in
  r = Ret tt /\ length (filter is_blocked_process l) = 10%nat /\
  writable s' = false /\
  if sign_eqb final FAILED_SIGN || sign_eqb final origin then
    skipn 10 l = [Emit (EvError (if sign_eqb final origin then FAILED_TO_FINISH_TIMEOUT
                                 else FAILED_TO_FINISH_READER)); Emit EvClose] /\
    writableErrored s' = true /\ writableFinished s' = writableFinished s /\
    writableEnded s' = false /\ closed s' = true
  else
    skipn 10 l = [Emit EvFinish] /\
    writableFinished s' = true /\ writableEnded s' = true /\ writableErrored s' = writableErrored s /\
    S_WRITE_PROCESS s' = FINISHED_SIGN /\ closed s' = closed s.
Proof. exact (end_run E s). Qed.

Lemma end_outcome_witness :
  let origin := READ_PROCESS (reader E_still (clock ring0)) in
  let final := READ_PROCESS (reader E_still (20 + clock ring0)) in
  let '(s', l, r) := end_ E_still ring0 in
  r = Ret tt /\ length (filter is_blocked_process l) = 10%nat /\
  writable s' = false /\
  if sign_eqb final FAILED_SIGN || sign_eqb final origin then
    skipn 10 l = [Emit (EvError (if sign_eqb final origin then FAILED_TO_FINISH_TIMEOUT
                                 else FAILED_TO_FINISH_READER)); Emit EvClose] /\
    writableErrored s' = true /\ writableFinished s' = writableFinished ring0 /\
    writableEnded s' = false /\ closed s' = true
  else
    skipn 10 l = [Emit EvFinish] /\
    writableFinished s' = true /\ writableEnded s' = true /\ writableErrored s' = writableErrored ring0 /\
    S_WRITE_PROCESS s' = FINISHED_SIGN /\ closed s' = closed ring0.
Proof. exact (end_outcome E_still ring0 eq_refl). Defined.

(** ** [synchronize()] *)

(** X6: when READ_PROCESS is neither READY nor EMPTY at the load of
    [synchronize()] and at the load of the [destroy] it calls, the writer is
    destroyed with READER_EXIT_BEFORE_SYNC, but WRITE_PROCESS keeps the READY
    that [synchronize()] stored first. *)
Theorem synchronize_reader_gone E s :
  let st := READ_PROCESS (reader E (clock s)) in
  let st' := READ_PROCESS (reader E (S (clock s))) in
  writable s = true -> is_active st = false -> is_active st' = false ->
  let '(s', l, r) := synchronize E s in
  r = Ret tt /\ l = [Emit (EvError READER_EXIT_BEFORE_SYNC); Emit EvClose] /\
  writable s' = false /\ writableErrored s' = true /\ ready s' = ready s /\
  S_WRITE_PROCESS s' = READY_SIGN /\ _process s' = READY_SIGN.
Proof.
  intros st st' Hw Ha Ha'.
  unfold synchronize. rewrite !bind_modify, bind_load.
  cbn [clock set_process set_S_WRITE_PROCESS]. fold st.
  assert (Hr : sign_eqb st READY_SIGN = false /\ sign_eqb st EMPTY_SIGN = false)
    by (unfold is_active in Ha; apply orb_false_iff in Ha; exact Ha).
  destruct Hr as [-> ->]. cbn [negb].
  rewrite destroy_writable_eq by (unfold writable in *; cbn; exact Hw).
  cbn [clock set_clock]. fold st'. rewrite Ha', andb_false_r.
  cbn. repeat split; reflexivity.
Qed.

Lemma synchronize_reader_gone_witness :
  let '(s', l, r) := synchronize E_gone ring0 in
  r = Ret tt /\ l = [Emit (EvError READER_EXIT_BEFORE_SYNC); Emit EvClose] /\
  writable s' = false /\ writableErrored s' = true /\ ready s' = ready ring0 /\
  S_WRITE_PROCESS s' = READY_SIGN /\ _process s' = READY_SIGN.
Proof. exact (synchronize_reader_gone E_gone ring0 eq_refl eq_refl eq_refl). Defined.

(** X7: when READ_PROCESS is EMPTY at the load of [synchronize()], the
    writer waits for the reader ([sync_waiter]) if READ_PROCESS is still
    EMPTY when [waitAsync] reads it; if it has changed in between, the call
    of the missing [this._synchronize] throws a TypeError. *)
Theorem synchronize_empty E s :
  READ_PROCESS (reader E (clock s)) = EMPTY_SIGN ->
  let '(s', l, r) := synchronize E s in
  l = [] /\ S_WRITE_PROCESS s' = READY_SIGN /\ ready s' = ready s /\
  if sign_eqb (READ_PROCESS (reader E (S (clock s)))) EMPTY_SIGN
  then r = Ret tt /\ sync_waiter s' = true
  else r = Throw TypeError /\ sync_waiter s' = sync_waiter s.
Proof.
  intros H. unfold synchronize. rewrite !bind_modify, bind_load.
  cbn [clock set_process set_S_WRITE_PROCESS]. rewrite H. cbn [sign_eqb negb].
  unfold wait_async_process at 1. rewrite (bind_ret _ _ E _ _ _ _ eq_refl).
  cbn [clock set_clock].
  destruct (sign_eqb (READ_PROCESS (reader E (S (clock s)))) EMPTY_SIGN); cbn;
    repeat split; reflexivity.
Qed.

Lemma synchronize_empty_witness :
  let '(s', l, r) := synchronize E_attach ring0 in
  l = [] /\ S_WRITE_PROCESS s' = READY_SIGN /\ ready s' = ready ring0 /\
  if sign_eqb (READ_PROCESS (reader E_attach (S (clock ring0)))) EMPTY_SIGN
  then r = Ret tt /\ sync_waiter s' = true
  else r = Throw TypeError /\ sync_waiter s' = sync_waiter ring0.
Proof. exact (synchronize_empty E_attach ring0 eq_refl). Defined.

(** ** The continuation of [synchronize()] *)

Ltac sync_settle_tail :=
  cbv beta iota zeta;
  match goal with |- context [if ?b then _ else _] => destruct b end;
  cbn [writable writableErrored ready _destroyed _ending _errored sync_waiter _ready _watching
       set_closed set_destroyed set_errored set_S_WRITE_PROCESS set_clock set_watching
       set_sync_waiter map negb andb];
  repeat split.

(** X8: when the wait of [synchronize()] settles with a value other than
    'ok', or with 'ok' while READ_PROCESS is not READY, the writer is
    destroyed with READER_FAILED_TIMEOUT or READER_EXIT_AT_SYNC: it emits
    'error' and 'close', is errored, not watching and not writable, and its
    ready flag is left as it was. *)
Theorem sync_settle_failure fuel E s v :
  sync_waiter s = true -> writable s = true ->
  (v <> WOk \/ READ_PROCESS (reader E (clock s)) <> READY_SIGN) ->
  let e := if wait_result_eqb v WOk then READER_EXIT_AT_SYNC else READER_FAILED_TIMEOUT in
  let '(s', tr) := session_step fuel E s (OpSyncSettle v) in
  tr = [TObs (Emit (EvError e)); TObs (Emit EvClose)] /\
  writable s' = false /\ writableErrored s' = true /\ sync_waiter s' = false /\
  ready s' = ready s /\ _watching s' = false.
Proof.
  intros Hsw Hw Hv e. cbn [session_step]. rewrite Hsw. unfold run_unit, synchronize_settled.
  assert (Hw' : writable (set_sync_waiter false s) = true) by exact Hw.
  destruct v; cbn [wait_result_eqb negb] in e |- *; subst e.
  - destruct Hv as [Hv | Hv]; [congruence |].
    rewrite bind_load. cbn [clock set_sync_waiter].
    destruct (sign_eqb (READ_PROCESS (reader E (clock s))) READY_SIGN) eqn:Hr;
      [destruct (READ_PROCESS (reader E (clock s))); try discriminate Hr; congruence |].
    cbn [negb]. rewrite destroy_writable_eq by exact Hw. sync_settle_tail.
  - rewrite destroy_writable_eq by exact Hw'. sync_settle_tail.
  - rewrite destroy_writable_eq by exact Hw'. sync_settle_tail.
Qed.


Lemma sync_settle_failure_witness :
  let e := if wait_result_eqb WTimedOut WOk then READER_EXIT_AT_SYNC else READER_FAILED_TIMEOUT in
  let '(s', tr) := session_step 5 E_still (set_sync_waiter true ring0) (OpSyncSettle WTimedOut) in
  tr = [TObs (Emit (EvError e)); TObs (Emit EvClose)] /\
  writable s' = false /\ writableErrored s' = true /\ sync_waiter s' = false /\
  ready s' = ready (set_sync_waiter true ring0) /\ _watching s' = false.
Proof.
  apply (sync_settle_failure 5 E_still (set_sync_waiter true ring0) WTimedOut);
    [reflexivity | reflexivity | left; discriminate].
Defined.

(** ** [_watch()] *)

(** X9: [_watch()] on a watching, writable writer whose reader is FAILED or
    FINISHED destroys the writer with READER_EXIT_WHILE_WATCH. *)
Theorem watch_reader_exit fuel E s :
  _watching s = true -> writable s = true ->
  let st := READ_PROCESS (reader E (clock s)) in
  sign_eqb st FAILED_SIGN || sign_eqb st FINISHED_SIGN = true ->
  let '(s', l, r) := _watch (S fuel) E s in
  r = Ret tt /\ l = [Emit (EvError READER_EXIT_WHILE_WATCH); Emit EvClose] /\
  writable s' = false /\ writableErrored s' = true /\ _watching s' = false /\
  ready s' = ready s.
Proof.
  intros Hwt Hw st Hst. cbn [_watch]. rewrite bind_get, Hwt. cbn [negb].
  rewrite bind_load. fold st. rewrite Hst.
  replace (sign_eqb st FINISHING_SIGN) with false
    by (destruct st; try discriminate Hst; reflexivity).
  rewrite destroy_writable_eq by exact Hw. sync_settle_tail.
Qed.

Lemma watch_reader_exit_witness :
  let '(s', l, r) := _watch 3 E_gone (set_watching true ring0) in
  r = Ret tt /\ l = [Emit (EvError READER_EXIT_WHILE_WATCH); Emit EvClose] /\
  writable s' = false /\ writableErrored s' = true /\ _watching s' = false /\
  ready s' = ready (set_watching true ring0).
Proof. apply (watch_reader_exit 2 E_gone (set_watching true ring0)); reflexivity. Defined.

(** ** Steps of [Write] *)

(** [Write] when the payload fits, step by step. *)
Lemma Write_fits_eq fuel sync E s d :
  writable s = true -> 0 <= POSTFIX_SIZE E ->
  let read := READ_INDEX (reader E (clock s)) in
  let cycle := READ_CYCLE (reader E (S (clock s))) in
  let isBehind := (_write s <? read) || (cycle <? _cycle s) in
  let leftover := (if isBehind then read else Zlength (_sharedBuffer s)) - _write s in
  cycle <= _cycle s ->
  Zlength d + EXTRA_SPACE E <= leftover - (EXTRA_SPACE E + 1) ->
  Write (S fuel) sync (Some d) E s = (_store d 0;; ret false) E (set_clock (S (S (clock s))) s).
Proof.
  intros Hw HP read cycle isBehind leftover Hc Hfit.
  pose proof (Zlength_nonneg d) as Hd.
  cbn [Write]. rewrite bind_get, Hw. cbn [negb].
  rewrite bind_load, bind_load, bind_ask, bind_get. cbn [clock set_clock _write _cycle _sharedBuffer].
  fold read cycle isBehind. rewrite (set_clock_set_clock (S (S (clock s)))).
  cbn [_write _cycle _sharedBuffer set_clock]. fold leftover.
  unfold EXTRA_SPACE, PREFIX_SIZE in *.
  replace (leftover <? 0) with false by (symmetry; apply Z.ltb_ge; lia).
  replace (_cycle s <? cycle) with false by (symmetry; apply Z.ltb_ge; lia).
  replace (leftover - (4 + POSTFIX_SIZE E + 1) <=? 0) with false
    by (symmetry; apply Z.leb_gt; lia).
  replace (leftover - (4 + POSTFIX_SIZE E + 1) <? Zlength d + (4 + POSTFIX_SIZE E)) with false
    by (symmetry; apply Z.ltb_ge; lia).
  reflexivity.
Qed.

(** X10: when [Write] finds room for the whole payload and its extra space
    ([leftover - (EXTRA_SPACE + 1) >= byteLength + EXTRA_SPACE]) and the
    frame lies inside the ring, it writes the payload as one final frame at
    [_write], publishes the new [WRITE_INDEX] and returns false; the cycle,
    the overflow queue and the binding of [write] are unchanged. *)
Theorem write_fits fuel sync E s d :
  writable s = true -> 0 <= POSTFIX_SIZE E -> 0 <= _write s -> Zlength d <= 2 ^ 31 - 1 ->
  let read := READ_INDEX (reader E (clock s)) in
  let cycle := READ_CYCLE (reader E (S (clock s))) in
  let isBehind := (_write s <? read) || (cycle <? _cycle s) in
  let leftover := (if isBehind then read else Zlength (_sharedBuffer s)) - _write s in
  cycle <= _cycle s ->
  Zlength d + EXTRA_SPACE E <= leftover - (EXTRA_SPACE E + 1) ->
  _write s + PREFIX_SIZE + Zlength d + POSTFIX_SIZE E + 1 <= Zlength (_sharedBuffer s) ->
  let W := _write s + PREFIX_SIZE + Zlength d + POSTFIX_SIZE E + 1 in
  let '(s', l, r) := Write (S fuel) sync (Some d) E s in
  r = Ret false /\ l = [Frame d 0] /\ _write s' = W /\ S_WRITE_INDEX s' = W /\
  _sharedBuffer s' = store_bytes (_sharedBuffer s) (_write s) (POSTFIX_SIZE E) d 0 /\
  _cycle s' = _cycle s /\ S_WRITE_CYCLE s' = S_WRITE_CYCLE s /\
  _extraBuffer s' = _extraBuffer s /\ write_entry s' = write_entry s.
Proof.
  intros Hw HP Hw0 Hd read cycle isBehind leftover Hc Hfit Hring W.
  rewrite (Write_fits_eq fuel sync E s d Hw HP Hc Hfit).
  set (s2 := set_clock (S (S (clock s))) s).
  assert (H1 := _store_ok d 0 E s2 HP Hw0 ltac:(lia) Hd Hring).
  rewrite (bind_ret _ _ _ _ _ _ _ H1). cbn. repeat split.
Qed.

Lemma write_fits_witness :
  let '(s', l, r) := Write 3 true (Some [1; 2; 3]) E_still ring0 in
  r = Ret false /\ l = [Frame [1; 2; 3] 0] /\
  _write s' = _write ring0 + PREFIX_SIZE + Zlength [1; 2; 3] + POSTFIX_SIZE E_still + 1 /\
  S_WRITE_INDEX s' = _write ring0 + PREFIX_SIZE + Zlength [1; 2; 3] + POSTFIX_SIZE E_still + 1 /\
  _sharedBuffer s' = store_bytes (_sharedBuffer ring0) (_write ring0) (POSTFIX_SIZE E_still) [1; 2; 3] 0 /\
  _cycle s' = _cycle ring0 /\ S_WRITE_CYCLE s' = S_WRITE_CYCLE ring0 /\
  _extraBuffer s' = _extraBuffer ring0 /\ write_entry s' = write_entry ring0.
Proof. apply (write_fits 2 true E_still ring0 [1; 2; 3]); vm_compute; congruence. Defined.

(** X11: [write(p)] on a writer behind the reader without room, while
    READ_INDEX has not moved at the [waitAsync], registers one wake-up,
    binds [write] to [FakeWrite], sets [writableNeedDrain], queues [p] and
    returns true, with nothing written to the ring and nothing emitted. *)
Theorem write_backpressure_step fuel E s d :
  writable s = true ->
  let read := READ_INDEX (reader E (clock s)) in
  let cycle := READ_CYCLE (reader E (S (clock s))) in
  (_write s <? read) || (cycle <? _cycle s) = true ->
  _write s <= read -> cycle <= _cycle s -> read - _write s <= EXTRA_SPACE E + 1 ->
  READ_INDEX (reader E (S (S (clock s)))) = read ->
  Write (S fuel) false (Some d) E s =
  (set_extraBuffer (_extraBuffer s ++ [Some d])
     (set_needDrain true (set_write_entry Stub
        (set_drain_waiters (S (drain_waiters s)) (set_clock (3 + clock s) s)))),
   [], Ret true).
Proof.
  intros Hw read cycle Hb Hr Hc Hl Hi.
  cbn [Write]. rewrite bind_get, Hw. cbn [negb].
  rewrite bind_load, bind_load, bind_ask, bind_get. cbn [clock set_clock _write _cycle _sharedBuffer].
  fold read cycle. rewrite Hb.
  replace (read - _write s <? 0) with false by (symmetry; apply Z.ltb_ge; lia).
  replace (_cycle s <? cycle) with false by (symmetry; apply Z.ltb_ge; lia).
  replace (read - _write s - (EXTRA_SPACE E + 1) <=? 0) with true
    by (symmetry; apply Z.leb_le; lia).
  cbn [andb]. unfold wait_async_index at 1. rewrite (bind_ret _ _ E _ _ _ _ eq_refl).
  cbn [clock set_clock]. rewrite Hi, Z.eqb_refl. cbn. destruct s; reflexivity.
Qed.

Lemma write_backpressure_step_witness :
  let s := set_cycle 1 (set_write 2 ring0) in
  Write 4 false (Some [7]) E_blocked s =
  (set_extraBuffer (_extraBuffer s ++ [Some [7]])
     (set_needDrain true (set_write_entry Stub
        (set_drain_waiters (S (drain_waiters s)) (set_clock (3 + clock s) s)))),
   [], Ret true).
Proof.
  apply (write_backpressure_step 3 E_blocked (set_cycle 1 (set_write 2 ring0)) [7]);
    vm_compute; congruence.
Defined.

(** ** [writableNeedDrain] and the binding of [this.write] *)

Lemma need_drain_ok_clock m s : need_drain_ok s -> need_drain_ok (set_clock m s).
Proof. simpl. auto. Qed.
#[export] Hint Resolve need_drain_ok_clock : pres.

Lemma need_drain_stub {A} (k : M A) :
  preserves need_drain_ok k ->
  preserves need_drain_ok (modify (set_write_entry Stub);; modify (set_needDrain true);; k).
Proof. intros Hk E s _. rewrite !bind_modify. apply Hk. reflexivity. Qed.

Lemma need_drain_engine {A} (k : M A) :
  preserves need_drain_ok k ->
  preserves need_drain_ok (modify (set_write_entry Engine);; modify (set_needDrain false);; k).
Proof. intros Hk E s _. rewrite !bind_modify. apply Hk. reflexivity. Qed.

Ltac pres_nd :=
  repeat match goal with
    | |- preserves _ (bind (modify (set_write_entry Stub)) _) => apply need_drain_stub
    | |- preserves _ (bind (modify (set_write_entry Engine)) _) => apply need_drain_engine
    | |- preserves _ (bind _ _) => apply preserves_bind; [ | intros ?; cbv beta ]
    | |- preserves _ (match ?x with _ => _ end) => destruct x
    | |- preserves _ (let _ := _ in _) => cbv zeta
    | |- preserves _ (modify _) => apply preserves_modify; intros ?s ?Hs; simpl in *; try exact Hs
    | |- _ => solve [eauto with pres]
    end.

Lemma buffer_write_nd d off : preserves need_drain_ok (buffer_write d off).
Proof. unfold buffer_write. pres_nd. Qed.

Lemma writeInt32LE_nd v off : preserves need_drain_ok (writeInt32LE v off).
Proof. unfold writeInt32LE. pres_nd. Qed.

Lemma writeUInt8_nd v off : preserves need_drain_ok (writeUInt8 v off).
Proof. unfold writeUInt8. pres_nd. Qed.
#[export] Hint Resolve buffer_write_nd writeInt32LE_nd writeUInt8_nd : pres.

Lemma _store_nd d nf : preserves need_drain_ok (_store d nf).
Proof. unfold _store. pres_nd. Qed.

Lemma FakeWrite_nd d : preserves need_drain_ok (FakeWrite d).
Proof. unfold FakeWrite. pres_nd. Qed.

Lemma spin_read_nd k read spins : preserves need_drain_ok (spin_read k read spins).
Proof. revert spins; induction k; intros; simpl; pres_nd. Qed.
#[export] Hint Resolve _store_nd FakeWrite_nd spin_read_nd : pres.

Lemma Write_nd fuel sync t : preserves need_drain_ok (Write fuel sync t).
Proof. revert sync t; induction fuel; intros; simpl; pres_nd. Qed.
#[export] Hint Resolve Write_nd : pres.

Lemma destroy_nd e : preserves need_drain_ok (destroy e).
Proof. unfold destroy. pres_nd. Qed.
#[export] Hint Resolve destroy_nd : pres.

Lemma end_spin_nd k spins st : preserves need_drain_ok (end_spin k spins st).
Proof. revert spins st; induction k; intros; simpl; pres_nd. Qed.
#[export] Hint Resolve end_spin_nd : pres.

Lemma end_nd : preserves need_drain_ok end_.
Proof. unfold end_. pres_nd. Qed.
#[export] Hint Resolve end_nd : pres.

Lemma run_end_nd k : preserves need_drain_ok (run_end k).
Proof. induction k; simpl; pres_nd. Qed.
#[export] Hint Resolve run_end_nd : pres.

Lemma emit_drain_nd : preserves need_drain_ok emit_drain.
Proof. unfold emit_drain. pres_nd. Qed.
#[export] Hint Resolve emit_drain_nd : pres.

Lemma _drain_nd fuel : preserves need_drain_ok (_drain fuel).
Proof. induction fuel; simpl; pres_nd. Qed.

Lemma _watch_nd fuel : preserves need_drain_ok (_watch fuel).
Proof. induction fuel; simpl; pres_nd. Qed.
#[export] Hint Resolve _watch_nd : pres.

Lemma synchronize_nd : preserves need_drain_ok synchronize.
Proof. unfold synchronize. pres_nd. Qed.

Lemma synchronize_settled_nd fuel v : preserves need_drain_ok (synchronize_settled fuel v).
Proof. unfold synchronize_settled. pres_nd. Qed.

Lemma public_write_nd fuel p : preserves need_drain_ok (public_write fuel p).
Proof. unfold public_write. pres_nd. Qed.

(** X12: [writableNeedDrain] is true exactly while [write] is bound to
    [FakeWrite], at every point between calls of any session that starts in
    that state. *)
Theorem session_need_drain fuel E ops s :
  writableNeedDrain s = match write_entry s with Stub => true | Engine => false end ->
  let s' := fst (session fuel E s ops) in
  writableNeedDrain s' = match write_entry s' with Stub => true | Engine => false end.
Proof.
  intros Hs. change (need_drain_ok (fst (session fuel E s ops))). change (need_drain_ok s) in Hs.
  revert s Hs. induction ops as [| o ops IH]; intros s Hs; [exact Hs |].
  simpl. assert (H1 : need_drain_ok (fst (session_step fuel E s o))).
  { destruct o; simpl session_step.
    - pose proof (public_write_nd fuel p E s Hs) as H.
      destruct (public_write fuel p E s) as [[? ?] ?]. exact H.
    - pose proof (Write_nd fuel true (Some p) E s Hs) as H.
      destruct (Write fuel true (Some p) E s) as [[? ?] ?]. exact H.
    - apply run_unit_pres; auto using destroy_nd.
    - apply run_unit_pres; auto using end_nd.
    - apply run_unit_pres; auto using synchronize_nd.
    - destruct (drain_waiters s); [exact Hs |]. apply run_unit_pres; auto using _drain_nd.
    - destruct (watch_waiters s); [exact Hs |]. apply run_unit_pres; auto using _watch_nd.
    - destruct (sync_waiter s); [| exact Hs]. apply run_unit_pres; auto using synchronize_settled_nd. }
  destruct (session_step fuel E s o) as [s1 t1]. specialize (IH s1 H1).
  destruct (session fuel E s1 ops) as [s2 t2]. exact IH.
Qed.

Lemma session_need_drain_witness :
  let s' := fst (session 20 E_ring ring0 ring_ops) in
  writableNeedDrain s' = match write_entry s' with Stub => true | Engine => false end.
Proof. apply (session_need_drain 20 E_ring ring_ops ring0). reflexivity. Defined.

(** [end()] always returns, and leaves the writer not writable. *)
Lemma end_closes E s :
  exists s' l, end_ E s = (s', l, Ret tt) /\ writable s' = false.
Proof.
  destruct (writable s) eqn:Hw.
  - pose proof (end_run E s Hw) as H. cbv zeta in H.
    destruct (end_ E s) as [[s' l] r]. destruct H as (-> & _ & Hw' & _). eauto.
  - exists s, []. split; [apply end_not_writable |]; exact Hw.
Qed.

(** X13: emitting 'drain' with k >= 1 pending [once('drain', end)]
    listeners runs [end()] once: the listeners after the first find the
    writer not writable. *)
Theorem drain_runs_end_once k E s :
  drain_listeners s = S k ->
  emit_drain E s =
  let '(s', l, r) := end_ E (set_drain_listeners 0 s) in (s', Emit EvDrain :: l, r).
Proof.
  intros Hk. unfold emit_drain, emit. rewrite bind_observe, bind_get, bind_modify, Hk.
  cbn [run_end]. destruct (end_closes E (set_drain_listeners 0 s)) as (s' & l & Heq & Hw).
  rewrite (bind_ret _ _ _ _ _ _ _ Heq), Heq, run_end_not_writable by exact Hw.
  cbn. rewrite app_nil_r. reflexivity.
Qed.

Lemma drain_runs_end_once_witness :
  emit_drain E_still (set_drain_listeners 3 ring0) =
  let '(s', l, r) := end_ E_still (set_drain_listeners 0 (set_drain_listeners 3 ring0)) in
  (s', Emit EvDrain :: l, r).
Proof. apply (drain_runs_end_once 2). reflexivity. Defined.

Lemma lq_clock ww dl q n s :
  listeners_queue_are ww dl q s -> listeners_queue_are ww dl q (set_clock n s).
Proof. simpl. auto. Qed.
#[export] Hint Resolve lq_clock : pres.

Lemma destroy_lq ww dl q e : preserves (listeners_queue_are ww dl q) (destroy e).
Proof. unfold destroy. pres. Qed.
#[export] Hint Resolve destroy_lq : pres.

Lemma end_spin_lq ww dl q k spins st : preserves (listeners_queue_are ww dl q) (end_spin k spins st).
Proof. revert spins st; induction k; intros; simpl; pres. Qed.
#[export] Hint Resolve end_spin_lq : pres.

Lemma end_lq ww dl q : preserves (listeners_queue_are ww dl q) end_.
Proof. unfold end_. pres. Qed.
#[export] Hint Resolve end_lq : pres.

Lemma run_end_lq ww dl q k : preserves (listeners_queue_are ww dl q) (run_end k).
Proof. induction k; simpl; pres. Qed.

(** X14: [_watch()] on a watching, writable writer whose reader is
    FINISHING and whose overflow queue is empty ends the stream with
    [end()]: it returns after the ten blocking waits of [end()], leaves the
    writer not writable, and neither re-arms its own wake-up nor registers
    a [once('drain', end)] listener; the queue stays empty. *)
Theorem watch_finishing_idle fuel E s :
  _watching s = true -> writable s = true ->
  READ_PROCESS (reader E (clock s)) = FINISHING_SIGN -> _extraBuffer s = [] ->
  let '(s', l, r) := _watch (S fuel) E s in
  r = Ret tt /\ length (filter is_blocked_process l) = 10%nat /\ writable s' = false /\
  watch_waiters s' = watch_waiters s /\ drain_listeners s' = drain_listeners s /\
  _extraBuffer s' = [].
Proof.
  intros Hwt Hw Hst Hq. cbn [_watch]. rewrite bind_get, Hwt. cbn [negb].
  rewrite bind_load, Hst. cbn [sign_eqb orb]. rewrite bind_get. cbn [_extraBuffer set_clock].
  rewrite Hq. cbn [length Nat.eqb].
  set (s0 := set_clock (S (clock s)) s).
  assert (Hw0 : writable s0 = true) by exact Hw.
  assert (Hlq : listeners_queue_are (watch_waiters s) (drain_listeners s) [] s0)
    by (simpl; auto).
  pose proof (end_lq (watch_waiters s) (drain_listeners s) [] E s0 Hlq) as Hlq'.
  pose proof (end_run E s0 Hw0) as H. cbv zeta in H.
  destruct (end_ E s0) as [[s' l] r]. cbn [st_of] in Hlq'.
  destruct H as (Hr & Hl & Hw' & _). destruct Hlq' as (H1 & H2 & H3).
  repeat split; assumption.
Qed.

Lemma watch_finishing_idle_witness :
  let '(s', l, r) := _watch 2 E_finishing (set_watching true ring0) in
  r = Ret tt /\ length (filter is_blocked_process l) = 10%nat /\ writable s' = false /\
  watch_waiters s' = watch_waiters (set_watching true ring0) /\
  drain_listeners s' = drain_listeners (set_watching true ring0) /\
  _extraBuffer s' = [].
Proof.
  apply (watch_finishing_idle 1 E_finishing (set_watching true ring0)); reflexivity.
Defined.

(** X15: [_watch()] on a watching writer whose reader is FINISHING while
    the overflow queue is not empty does not end the stream: it registers
    one [once('drain', end)] listener and, while READ_PROCESS stays
    FINISHING, one wake-up of [_watch()]; nothing is emitted. *)
Theorem watch_finishing_busy fuel E s :
  _watching s = true -> READ_PROCESS (reader E (clock s)) = FINISHING_SIGN ->
  _extraBuffer s <> [] -> READ_PROCESS (reader E (S (clock s))) = FINISHING_SIGN ->
  _watch (S fuel) E s =
  (set_watch_waiters (S (watch_waiters s))
     (set_clock (S (S (clock s))) (set_drain_listeners (S (drain_listeners s)) s)),
   [], Ret tt).
Proof.
  intros Hwt Hst Hq Hst'. cbn [_watch]. rewrite bind_get, Hwt. cbn [negb].
  rewrite bind_load, Hst. cbn [sign_eqb orb]. rewrite bind_get. cbn [_extraBuffer set_clock].
  destruct (_extraBuffer s) as [| x q] eqn:Hq'; [congruence |]. cbn [length Nat.eqb].
  rewrite bind_modify. unfold wait_async_process at 1.
  rewrite (bind_ret _ _ E _ _ _ _ eq_refl). cbn [clock set_clock set_drain_listeners].
  rewrite Hst'. cbn. destruct s; reflexivity.
Qed.

Lemma watch_finishing_busy_witness :
  let s := set_extraBuffer [Some [1]] (set_watching true ring0) in
  _watch 2 E_finishing s =
  (set_watch_waiters (S (watch_waiters s))
     (set_clock (S (S (clock s))) (set_drain_listeners (S (drain_listeners s)) s)),
   [], Ret tt).
Proof.
  apply (watch_finishing_busy 1 E_finishing (set_extraBuffer [Some [1]] (set_watching true ring0)));
    [reflexivity | reflexivity | discriminate | reflexivity].
Defined.

(** ** [_drain()] *)

Lemma run_end_ret n E s : exists s' l, run_end n E s = (s', l, Ret tt).
Proof.
  revert s. induction n as [| n IH]; intros s; [exists s, []; reflexivity |].
  cbn [run_end]. destruct (end_closes E s) as (s1 & l1 & H1 & _).
  rewrite (bind_ret _ _ _ _ _ _ _ H1). destruct (IH s1) as (s2 & l2 & H2).
  rewrite H2. eauto.
Qed.

(** [emit('drain')] on a writer bound to the engine with an empty queue:
    the listeners' [end()] calls keep it so. *)
Lemma emit_drain_engine E s :
  need_drain_ok s -> write_entry s = Engine -> _extraBuffer s = [] ->
  exists s' l, emit_drain E s = (s', Emit EvDrain :: l, Ret tt) /\
    write_entry s' = Engine /\ _needDrain s' = false /\ _extraBuffer s' = [].
Proof.
  intros Hn He Hq. unfold emit_drain, emit.
  rewrite bind_observe, (bind_get _ E s), bind_modify.
  set (s0 := set_drain_listeners 0 s).
  destruct (run_end_ret (drain_listeners s) E s0) as (s' & l & H).
  pose proof (run_end_entry Engine (drain_listeners s) E s0 He) as He'.
  pose proof (run_end_nd (drain_listeners s) E s0 Hn) as Hn'.
  pose proof (run_end_lq (watch_waiters s0) (drain_listeners s0) [] (drain_listeners s) E s0
                ltac:(simpl; auto)) as Hq'.
  rewrite H in He', Hn', Hq'. cbn [st_of] in He', Hn', Hq'. simpl in He', Hn', Hq'.
  exists s', l. rewrite H. rewrite He' in Hn'. intuition.
Qed.


End SharedStream.
